(** * Gabor and Log-Gabor filter kernels: a shallow embedding of
      [src/gabor_functions.py] and the properties of its generators.

    Numbers.  Python [int]s are [Z].  Python [float] arguments are finite
    reals ([R]).  Python scalar arithmetic is exact but for underflow: a
    product, a power or a quotient of floats whose exact value is too
    small for a float is [0.0] ([Py.rounded]), so that a following
    division raises [ZeroDivisionError] as it does for a zero argument.
    There is no other rounding and no overflow: the theorems on returned
    values are stated for parameters of moderate magnitude
    ([Py.moderate]), for which no scalar step of the source leaves the
    range of the normal floats.  NumPy values
    ([np.float64] scalars and the cells of an [ndarray]) are reals
    extended with the IEEE special values [+inf], [-inf] and [nan]: NumPy
    arithmetic never raises, a division by zero or a logarithm of a
    non-positive number yields a special value (NumPy only warns), and
    the cells are exact reals otherwise.  A zero is the positive zero
    [0.0]; the negative zero [-0.0], which a caller can pass for a float
    argument, is not a value of the model, and what is stated of a zero
    argument is stated so that it holds of the code for both zeros.

    The division operator [/] is Python 3's true division.  The element
    type selector [ktype] is left out: every array is a float64 array.
    NumPy is the NumPy the source is written for, with [np.float] and
    [ndarray.itemset], and with its default error state, where a floating
    point error is a warning. *)

From Stdlib Require Import String Reals ZArith List Lia Lra Bool.
Import ListNotations.

Open Scope R_scope.

(* ================================================================== *)
(** ** The Python layer: exceptions, results, scalars, loops *)

Module Py.

(** The exceptions this module can raise.  [Exception_ msg] is the
    explicit [raise Exception(msg)] of the source; the others are raised
    by the interpreter or by NumPy. *)
Inductive exception : Type :=
| Exception_ (msg : string)
| ZeroDivisionError
| ValueError
| IndexError.

Inductive result (A : Type) : Type :=
| Return (a : A)
| Raise (e : exception).

Arguments Return {A} a.
Arguments Raise {A} e.

Definition bind {A B : Type} (c : result A) (k : A -> result B) : result B :=
  match c with
  | Return a => k a
  | Raise e => Raise e
  end.

Definition raises {A : Type} (c : result A) : Prop :=
  exists e, c = Raise e.

Definition returns {A : Type} (c : result A) : Prop :=
  exists a, c = Return a.

(** [a / b] on Python scalars, where [a] is a constant of the source or
    an [int]: a float is below [2 ** 1024] in magnitude, so that such a
    quotient is never small enough to underflow.  A zero divisor raises,
    as it does for [0.0] and for [-0.0]. *)
Definition truediv (a b : R) : result R :=
  if Req_dec_T b 0 then Raise ZeroDivisionError else Return (a / b).

(** [a < b] on Python scalars. *)
Definition lt (a b : R) : bool :=
  if Rlt_dec a b then true else false.

(** Half of the smallest positive float, [2 ** -1075].  Every non-zero
    float has a magnitude above it, and an exact result whose magnitude
    is at most it rounds to [0.0]. *)
Definition eta : R := / 2 ^ 1075.

(** [2 ** -250], about [5.5e-76], and [2 ** 250], about [1.8e75]. *)
Definition small : R := / 2 ^ 250.
Definition large : R := 2 ^ 250.

(** The numbers of moderate magnitude.  A square, a product or a
    quotient of two of them, and a constant of the source divided by
    one, are normal floats: no scalar step underflows or overflows. *)
Definition moderate (r : R) : Prop := small <= Rabs r <= large.

(** The float that an operation on the floats [a] and [b] gives, from the
    exact value of the result: [0.0] where the operation underflows, that
    is where the operands are non-zero floats and the exact value is at
    most [eta] in magnitude, and the exact value otherwise. *)
Definition rounded (a b exact : R) : R :=
  if lt eta (Rabs a) && lt eta (Rabs b) && negb (lt eta (Rabs exact))
  then 0
  else exact.

(** [a * b] on Python floats. *)
Definition mul (a b : R) : R := rounded a b (a * b).

(** [a ** n] on a Python float, for an integer [n >= 0]. *)
Definition pow (a : R) (n : nat) : R := rounded a a (a ^ n).

(** [a / b] on two Python floats of any magnitude. *)
Definition truediv_floats (a b : R) : result R :=
  if Req_dec_T b 0 then Raise ZeroDivisionError
  else Return (rounded a b (a / b)).

(** [int(r)]: truncation towards zero. *)
Definition int (r : R) : Z :=
  if Rle_dec 0 r then Zfloor r else Zceil r.

(** [range(n)] *)
Definition range (n : Z) : list Z :=
  map Z.of_nat (seq 0 (Z.to_nat n)).

(** [for x in xs: s = body(x, s)], stopping at the first exception. *)
Fixpoint for_ {A S : Type} (xs : list A) (s : S)
         (body : A -> S -> result S) : result S :=
  match xs with
  | [] => Return s
  | x :: xs' => bind (body x s) (fun s' => for_ xs' s' body)
  end.

End Py.

Notation "'do' x <- c ; k" := (Py.bind c (fun x => k))
  (at level 10, x name, c at level 100, k at level 200).

(* ================================================================== *)
(** ** The NumPy layer: float64 values and arrays *)

Module Np.

Inductive float64 : Type :=
| Fin (r : R)
| PInf
| NInf
| NaN.

(** Sign of a real, as a three-way test. *)
Definition sgn (r : R) : comparison :=
  match total_order_T r 0 with
  | inleft (left _) => Lt
  | inleft (right _) => Eq
  | inright _ => Gt
  end.

(** The result of [inf * r] or [r / 0] by the sign of [r]. *)
Definition signed_inf (s : comparison) : float64 :=
  match s with
  | Gt => PInf
  | Lt => NInf
  | Eq => NaN
  end.

Definition neg (a : float64) : float64 :=
  match a with
  | Fin r => Fin (- r)
  | PInf => NInf
  | NInf => PInf
  | NaN => NaN
  end.

Definition abs (a : float64) : float64 :=
  match a with
  | Fin r => Fin (Rabs r)
  | PInf | NInf => PInf
  | NaN => NaN
  end.

Definition add (a b : float64) : float64 :=
  match a, b with
  | NaN, _ | _, NaN => NaN
  | Fin x, Fin y => Fin (x + y)
  | PInf, NInf | NInf, PInf => NaN
  | PInf, _ | _, PInf => PInf
  | NInf, _ | _, NInf => NInf
  end.

Definition mul (a b : float64) : float64 :=
  match a, b with
  | NaN, _ | _, NaN => NaN
  | Fin x, Fin y => Fin (x * y)
  | Fin x, PInf | PInf, Fin x => signed_inf (sgn x)
  | Fin x, NInf | NInf, Fin x => neg (signed_inf (sgn x))
  | PInf, PInf | NInf, NInf => PInf
  | PInf, NInf | NInf, PInf => NInf
  end.

(** [a / b]; a zero divisor is the positive zero. *)
Definition div (a b : float64) : float64 :=
  match a, b with
  | NaN, _ | _, NaN => NaN
  | Fin x, Fin y =>
      if Req_dec_T y 0 then signed_inf (sgn x) else Fin (x / y)
  | Fin _, PInf | Fin _, NInf => Fin 0
  | PInf, Fin y => if Rlt_dec y 0 then NInf else PInf
  | NInf, Fin y => if Rlt_dec y 0 then PInf else NInf
  | PInf, PInf | PInf, NInf | NInf, PInf | NInf, NInf => NaN
  end.

(** [a ** k] for an integer exponent. *)
Definition power (a : float64) (k : Z) : float64 :=
  match a with
  | Fin x =>
      if (k <? 0)%Z && (if Req_dec_T x 0 then true else false)
      then PInf else Fin (powerRZ x k)
  | PInf =>
      if (0 <? k)%Z then PInf else if (k =? 0)%Z then Fin 1 else Fin 0
  | NInf =>
      if (0 <? k)%Z then (if Z.even k then PInf else NInf)
      else if (k =? 0)%Z then Fin 1 else Fin 0
  | NaN => if (k =? 0)%Z then Fin 1 else NaN
  end.

Definition exp (a : float64) : float64 :=
  match a with
  | Fin r => Fin (Rtrigo_def.exp r)
  | PInf => PInf
  | NInf => Fin 0
  | NaN => NaN
  end.

Definition log (a : float64) : float64 :=
  match a with
  | Fin r =>
      match sgn r with
      | Gt => Fin (ln r)
      | Eq => NInf
      | Lt => NaN
      end
  | PInf => PInf
  | NInf | NaN => NaN
  end.

Definition sin (a : float64) : float64 :=
  match a with
  | Fin r => Fin (Rtrigo_def.sin r)
  | _ => NaN
  end.

Definition cos (a : float64) : float64 :=
  match a with
  | Fin r => Fin (Rtrigo_def.cos r)
  | _ => NaN
  end.

Definition hypot (a b : float64) : float64 :=
  match a, b with
  | Fin x, Fin y => Fin (sqrt (x * x + y * y))
  | PInf, _ | NInf, _ | _, PInf | _, NInf => PInf
  | _, _ => NaN
  end.

(** The two-argument arctangent on finite reals, in (-pi, pi]. *)
Definition atan2 (y x : R) : R :=
  match sgn x with
  | Gt => atan (y / x)
  | Lt => if Rlt_dec y 0 then atan (y / x) - PI else atan (y / x) + PI
  | Eq =>
      match sgn y with
      | Gt => PI / 2
      | Lt => - (PI / 2)
      | Eq => 0
      end
  end.

Definition arctan2 (a b : float64) : float64 :=
  match a, b with
  | NaN, _ | _, NaN => NaN
  | Fin y, Fin x => Fin (atan2 y x)
  | Fin y, PInf => Fin 0
  | Fin y, NInf => if Rlt_dec y 0 then Fin (- PI) else Fin PI
  | PInf, Fin _ => Fin (PI / 2)
  | NInf, Fin _ => Fin (- (PI / 2))
  | PInf, PInf => Fin (PI / 4)
  | PInf, NInf => Fin (3 * PI / 4)
  | NInf, PInf => Fin (- (PI / 4))
  | NInf, NInf => Fin (- (3 * PI / 4))
  end.

Definition is_finite (a : float64) : Prop :=
  exists r, a = Fin r.

(** *** Arrays *)

(** A 1-D array is the list of its cells, a 2-D array the list of its
    rows. *)
Abbreviation ndarray1 := (list float64).
Abbreviation ndarray2 := (list (list float64)).

Fixpoint zip_with {A B C : Type} (f : A -> B -> C)
         (xs : list A) (ys : list B) : list C :=
  match xs, ys with
  | x :: xs', y :: ys' => f x y :: zip_with f xs' ys'
  | _, _ => []
  end.

(** Element-wise unary and binary operations on 2-D arrays. *)
Definition map2d (f : float64 -> float64) (a : ndarray2) : ndarray2 :=
  map (map f) a.

Definition zip2d (f : float64 -> float64 -> float64)
           (a b : ndarray2) : ndarray2 :=
  zip_with (zip_with f) a b.

(** [a[i, j]] for in-range natural indices. *)
Definition item (a : ndarray2) (i j : nat) : option float64 :=
  match nth_error a i with
  | Some row => nth_error row j
  | None => None
  end.

(** [a.shape == (rows, cols)] *)
Definition has_shape (a : ndarray2) (rows cols : nat) : Prop :=
  length a = rows /\ Forall (fun row => length row = cols) a.

(** [np.arange(start, stop, dtype=float)]: [ceil(stop - start)] values
    [start, start + 1, ...]. *)
Definition arange (start stop : R) : ndarray1 :=
  map (fun k => Fin (start + INR k))
      (seq 0 (Z.to_nat (Zceil (stop - start)))).

(** [np.meshgrid(xs, ys)] *)
Definition meshgrid (xs ys : ndarray1) : ndarray2 * ndarray2 :=
  (map (fun _ => xs) ys, map (fun y => map (fun _ => y) xs) ys).

(** [np.zeros((rows, cols))] *)
Definition zeros (rows cols : Z) : Py.result ndarray2 :=
  if ((rows <? 0) || (cols <? 0))%Z then Py.Raise Py.ValueError
  else Py.Return (repeat (repeat (Fin 0) (Z.to_nat cols)) (Z.to_nat rows)).

(** Bounds check of one index against an axis of length [n]; a negative
    index counts from the end. *)
Definition adjust_index (i : Z) (n : nat) : Py.result nat :=
  let i' := if (i <? 0)%Z then (i + Z.of_nat n)%Z else i in
  if ((0 <=? i') && (i' <? Z.of_nat n))%Z
  then Py.Return (Z.to_nat i') else Py.Raise Py.IndexError.

Fixpoint set_nth {A : Type} (n : nat) (v : A) (l : list A) : list A :=
  match l, n with
  | [], _ => []
  | _ :: t, O => v :: t
  | h :: t, S n' => h :: set_nth n' v t
  end.

(** The array [a] with cell [(i, j)] replaced by [v]. *)
Definition set_item (a : ndarray2) (i j : nat) (v : float64) : ndarray2 :=
  set_nth i (set_nth j v (nth i a [])) a.

(** [a.itemset(i, j, v)], returning the updated array. *)
Definition itemset (a : ndarray2) (i j : Z) (v : float64)
  : Py.result ndarray2 :=
  do r <- adjust_index i (length a);
  let row := nth r a [] in
  do c <- adjust_index j (length row);
  Py.Return (set_nth r (set_nth c v row) a).

(** What the array stages of lines 101-123 compute in one cell, from the
    cell's coordinates [x] and [y]. *)
Definition angular_cell (theta0 sigma_theta0 : R) (x y : float64) : float64 :=
  let theta := arctan2 (neg y) x in
  let sintheta := sin theta in
  let costheta := cos theta in
  let sinangl := sin (Fin theta0) in
  let cosangl := cos (Fin theta0) in
  let ds := add (mul sintheta cosangl) (neg (mul costheta sinangl)) in
  let dc := add (mul costheta cosangl) (mul sintheta sinangl) in
  let dtheta := abs (arctan2 ds dc) in
  exp (div (neg (power dtheta 2)) (Fin (2 * Py.pow sigma_theta0 2))).

(** What lines 92-94 compute in one cell, from the cell's radius. *)
Definition radial_cell (f0 : R) (denominator r : float64) : float64 :=
  exp (div (neg (power (log (div r (Fin f0))) 2)) denominator).

End Np.

Import Np (Fin, PInf, NInf, NaN).

(* ================================================================== *)
(** ** The generators *)

(** The Gabor equation of one cell: lines 42-50 of the source, for the
    cell [(i, j)]. *)
Definition gabor_cell (half_width half_height : Z)
           (costheta sintheta : Np.float64) (const_x const_y const_scale psi : R)
           (i j : Z) : Np.float64 :=
  let y := (i - half_height)%Z in
  let x := (j - half_width)%Z in
  let xr := Np.add (Np.mul (Fin (IZR x)) costheta)
                   (Np.mul (Fin (IZR y)) sintheta) in
  let yr := Np.add (Np.mul (Fin (IZR (- x))) sintheta)
                   (Np.mul (Fin (IZR y)) costheta) in
  Np.mul
    (Np.exp (Np.add (Np.mul (Np.mul (Fin const_x) xr) xr)
                    (Np.mul (Np.mul (Fin const_y) yr) yr)))
    (Np.cos (Np.add (Np.mul (Fin const_scale) xr) (Fin psi))).

Definition get_gabor_kernel (ksize : Z * Z) (sigma theta lambd gamma psi : R)
  : Py.result Np.ndarray2 :=
  let costheta := Np.cos (Fin theta) in
  let sintheta := Np.sin (Fin theta) in
  let '(width, height) := ksize in
  let half_width := Py.int (IZR width / 2) in
  let half_height := Py.int (IZR height / 2) in
  do kernel <- Np.zeros height width;
  do const_x <- Py.truediv (- (1 / 2)) (Py.pow sigma 2);
  do sigma_y <- Py.truediv_floats sigma gamma;
  do const_y <- Py.truediv (- (1 / 2)) (Py.pow sigma_y 2);
  do const_scale <- Py.truediv (PI * 2) lambd;
  Py.for_ (Py.range height) kernel (fun i kernel =>
    Py.for_ (Py.range width) kernel (fun j kernel =>
      let value := gabor_cell half_width half_height costheta sintheta
                              const_x const_y const_scale psi i j in
      Np.itemset kernel i j value)).

Definition _low_pass_filter (fsize : Z * Z) (cutoff : R) (n : Z)
  : Py.result Np.ndarray2 :=
  if Py.lt cutoff 0 || Py.lt (1 / 2) cutoff
  then Py.Raise (Py.Exception_ "Cutoff frequency must be between 0 and 0.5.")
  else if (n <? 1)%Z
  then Py.Raise (Py.Exception_ "n must be an integer >= 1.")
  else
    let '(cols, rows) := fsize in
    let array_cols := Np.arange (IZR (- cols) / 2) (IZR cols / 2) in
    let array_rows := Np.arange (IZR (- rows) / 2) (IZR rows / 2) in
    let '(x, y) :=
      Np.meshgrid (map (fun a => Np.div a (Fin (IZR cols))) array_cols)
                  (map (fun a => Np.div a (Fin (IZR rows))) array_rows) in
    let radius := Np.zip2d Np.hypot x y in
    let f :=
      Np.map2d (fun r => Np.div (Fin 1)
                           (Np.add (Fin 1)
                              (Np.power (Np.div r (Fin cutoff)) (2 * n))))
               radius in
    Py.Return f.

(** Lines 71-77: the normalized coordinate grids of the Log-Gabor kernel. *)
Definition log_gabor_grid (ksize : Z * Z) : Np.ndarray2 * Np.ndarray2 :=
  let '(cols, rows) := ksize in
  let array_cols := Np.arange (IZR (- cols) / 2) (IZR cols / 2) in
  let array_rows := Np.arange (IZR (- rows) / 2) (IZR rows / 2) in
  Np.meshgrid
    (map (fun a => Np.div a (Fin (IZR (Z.min cols rows)))) array_cols)
    (map (fun a => Np.div a (Fin (IZR (Z.min cols rows)))) array_rows).

(** Line 83: the radius grid before the patch. *)
Definition log_gabor_radius (ksize : Z * Z) : Np.ndarray2 :=
  let '(x, y) := log_gabor_grid ksize in
  Np.zip2d Np.hypot x y.

(** Line 89: the radius grid after the centre patch. *)
Definition log_gabor_patched_radius (ksize : Z * Z) : Py.result Np.ndarray2 :=
  let '(cols, rows) := ksize in
  Np.itemset (log_gabor_radius ksize)
             (Py.int (IZR rows / 2)) (Py.int (IZR cols / 2)) (Fin 1).

(** Line 93 *)
Definition lg_radial_denominator (sigma_over_f : R) : Np.float64 :=
  Np.mul (Fin 2) (Np.power (Np.log (Fin sigma_over_f)) 2).

(** Lines 92-98: the radial component, from the patched radius. *)
Definition log_gabor_radial (ksize : Z * Z) (f0 sigma_over_f : R)
           (radius : Np.ndarray2) : Py.result Np.ndarray2 :=
  let '(cols, rows) := ksize in
  let lg_radial_numerator :=
    Np.map2d (fun r => Np.neg (Np.power (Np.log (Np.div r (Fin f0))) 2))
             radius in
  let lg_radial :=
    Np.map2d (fun a => Np.exp (Np.div a (lg_radial_denominator sigma_over_f)))
             lg_radial_numerator in
  Np.itemset lg_radial (Py.int (IZR rows / 2)) (Py.int (IZR cols / 2)) (Fin 0).

(** Lines 101-123: the angular component. *)
Definition log_gabor_angular (ksize : Z * Z) (theta0 sigma_theta0 : R)
  : Np.ndarray2 :=
  let '(x, y) := log_gabor_grid ksize in
  let theta := Np.zip2d Np.arctan2 (Np.map2d Np.neg y) x in
  let sintheta := Np.map2d Np.sin theta in
  let costheta := Np.map2d Np.cos theta in
  let angl := theta0 in
  let sinangl := Np.sin (Fin angl) in
  let cosangl := Np.cos (Fin angl) in
  let ds := Np.zip2d (fun s c =>
                        Np.add (Np.mul s cosangl) (Np.neg (Np.mul c sinangl)))
                     sintheta costheta in
  let dc := Np.zip2d (fun c s =>
                        Np.add (Np.mul c cosangl) (Np.mul s sinangl))
                     costheta sintheta in
  let dtheta := Np.map2d Np.abs (Np.zip2d Np.arctan2 ds dc) in
  Np.map2d (fun d => Np.exp (Np.div (Np.neg (Np.power d 2))
                                    (Fin (2 * Py.pow sigma_theta0 2))))
           dtheta.

Definition get_log_gabor_kernel (ksize : Z * Z)
           (f0 theta0 sigma_over_f sigma_theta0 : R)
  : Py.result Np.ndarray2 :=
  do radius <- log_gabor_patched_radius ksize;
  do lg_radial <- log_gabor_radial ksize f0 sigma_over_f radius;
  let lg_angular := log_gabor_angular ksize theta0 sigma_theta0 in
  do lp <- _low_pass_filter ksize (45 / 100) 15;
  let kernel := Np.zip2d Np.mul (Np.zip2d Np.mul lg_radial lg_angular) lp in
  Py.Return kernel.

Definition get_gabor_filterbank (ksize : Z * Z) (n_scales n_orientations : Z)
           (min_sigma scale_factor gamma psi : R)
  : Py.result (list Np.ndarray2) :=
  Py.for_ (Py.range n_scales) [] (fun scale filters =>
    Py.for_ (Py.range n_orientations) filters (fun orientation filters =>
      let sigma := min_sigma + IZR scale in
      let lambd := Py.mul sigma scale_factor in
      do turn <- Py.truediv (IZR orientation) (IZR n_orientations);
      let theta := 2 * PI * turn in
      do f <- get_gabor_kernel ksize sigma theta lambd gamma psi;
      Py.Return (filters ++ [f]))).

(** [scale_factor ** scale] has the non-negative integer exponent that
    [range] yields. *)
Definition get_log_gabor_filterbank
           (ksize : Z * Z) (n_scales n_orientations : Z)
           (min_wavelength scale_factor sigma_over_f sigma_theta : R)
  : Py.result (list Np.ndarray2) :=
  Py.for_ (Py.range n_scales) [] (fun scale filters =>
    Py.for_ (Py.range n_orientations) filters (fun orientation filters =>
      let wavelength :=
        Py.mul min_wavelength (Py.pow scale_factor (Z.to_nat scale)) in
      do f0 <- Py.truediv 1 wavelength;
      do turn <- Py.truediv (IZR orientation) (IZR n_orientations);
      let theta0 := 2 * PI * turn in
      do f <- get_log_gabor_kernel ksize f0 theta0 sigma_over_f sigma_theta;
      Py.Return (filters ++ [f]))).

(** The radial component that lines 89-98 leave for a grid with a centre
    cell: the radius patched to 1 at the centre, mapped cell by cell, and
    the centre reset to 0. *)
Definition log_gabor_radial_grid (ksize : Z * Z) (f0 sigma_over_f : R)
  : Np.ndarray2 :=
  let '(cols, rows) := ksize in
  let centre_row := Z.to_nat (rows / 2) in
  let centre_col := Z.to_nat (cols / 2) in
  Np.set_item
    (Np.map2d (Np.radial_cell f0 (lg_radial_denominator sigma_over_f))
              (Np.set_item (log_gabor_radius ksize)
                           centre_row centre_col (Fin 1)))
    centre_row centre_col (Fin 0).




(** The Butterworth response at radius [r]. *)
Definition butterworth (cutoff : R) (n : Z) (r : R) : R :=
  1 / (1 + (r / cutoff) ^ Z.to_nat (2 * n)).

(** The coordinate of cell [k] on an axis of [c] cells scaled by [1 / d]. *)
Definition axis_coord (c d k : Z) : R :=
  (IZR (- c) / 2 + IZR k) / IZR d.

(** The float [2 ** -600], about [2.4e-181]: its square, [2 ** -1200],
    underflows. *)
Definition tiny : R := / 2 ^ 600.

(* ================================================================== *)
(** ** Grids written cell by cell

    The states a zero grid goes through while two nested loops write
    [cell i j] at every [(i, j)], row by row. *)

Section FillStates.

Variable cell : Z -> Z -> Np.float64.

(** Row [i] after its first [m] cells were written. *)
Definition partial_row (i : nat) (W m : nat) : Np.ndarray1 :=
  map (fun j => cell (Z.of_nat i) (Z.of_nat j)) (seq 0 m)
  ++ repeat (Fin 0) (W - m).

(** The grid after its first [k] rows were written. *)
Definition partial_grid (H W k : nat) : Np.ndarray2 :=
  map (fun i => partial_row i W W) (seq 0 k)
  ++ repeat (repeat (Fin 0) W) (H - k).

(** The grid with every cell written. *)
Definition full_grid (H W : nat) : Np.ndarray2 :=
  map (fun i => map (fun j => cell (Z.of_nat i) (Z.of_nat j)) (seq 0 W))
      (seq 0 H).

End FillStates.

(* ================================================================== *)
(** ** Facts about the Python layer *)

Section PyFacts.

Lemma Return_inj {A : Type} (a b : A) : Py.Return a = Py.Return b -> a = b.
Proof. intros H. now inversion H. Qed.

Lemma truediv_nonzero (a b : R) :
  b <> 0 -> Py.truediv a b = Py.Return (a / b).
Proof.
  intros Hb. unfold Py.truediv.
  destruct (Req_dec_T b 0) as [E | _]; [contradiction | reflexivity].
Qed.


Lemma lt_true (a b : R) : a < b -> Py.lt a b = true.
Proof.
  intros H. unfold Py.lt. destruct (Rlt_dec a b); [reflexivity | contradiction].
Qed.

Lemma lt_false (a b : R) : b <= a -> Py.lt a b = false.
Proof.
  intros H. unfold Py.lt. destruct (Rlt_dec a b); [lra | reflexivity].
Qed.

(** [int(w / 2)] is the floored half of a non-negative integer. *)
Lemma int_half (w : Z) : (0 <= w)%Z -> Py.int (IZR w / 2) = (w / 2)%Z.
Proof.
  intros Hw. unfold Py.int.
  assert (H0 : 0 <= IZR w / 2).
  { apply IZR_le in Hw. lra. }
  destruct (Rle_dec 0 (IZR w / 2)) as [_ | N]; [| contradiction].
  apply Zfloor_eq.
  pose proof (Z.div_mod w 2 ltac:(lia)) as Hdm.
  pose proof (Z.mod_pos_bound w 2 ltac:(lia)) as Hmb.
  assert (Hw2 : IZR w = 2 * IZR (w / 2) + IZR (w mod 2)).
  { rewrite <- mult_IZR, <- plus_IZR. now rewrite <- Hdm. }
  assert (Hlo : 0 <= IZR (w mod 2)) by (apply IZR_le; lia).
  assert (Hhi : IZR (w mod 2) <= 1) by (apply IZR_le; lia).
  lra.
Qed.

Lemma half_in_range (w : Z) : (0 < w)%Z -> (0 <= w / 2 < w)%Z.
Proof.
  intros Hw. split.
  - apply Z.div_pos; lia.
  - apply Z.div_lt_upper_bound; lia.
Qed.

(** The loop rule: an invariant indexed by the iteration count, kept by a
    body that never raises, holds at the end of [for k in range(...)]. *)
Lemma for_seq_invariant {S : Type} (P : nat -> S -> Prop)
      (body : Z -> S -> Py.result S) (len start : nat) (s : S) :
  P start s ->
  (forall k t, (start <= k < start + len)%nat -> P k t ->
               exists t', body (Z.of_nat k) t = Py.Return t' /\ P (Datatypes.S k) t') ->
  exists s', Py.for_ (map Z.of_nat (seq start len)) s body = Py.Return s'
             /\ P (start + len)%nat s'.
Proof.
  revert start s. induction len as [| len IH]; intros start s H0 Hstep.
  - exists s. split; [reflexivity |]. now rewrite Nat.add_0_r.
  - destruct (Hstep start s ltac:(lia) H0) as [t' [Hb Ht']].
    destruct (IH (Datatypes.S start) t' Ht') as [s' [Hfor Hs']].
    + intros k t Hk. apply Hstep. lia.
    + exists s'. split.
      * simpl. rewrite Hb. simpl. exact Hfor.
      * now replace (start + Datatypes.S len)%nat
          with (Datatypes.S start + len)%nat by lia.
Qed.

End PyFacts.

(* ================================================================== *)
(** ** Underflow *)

Section Underflow.

Lemma eta_pos : 0 < Py.eta.
Proof. unfold Py.eta. apply Rinv_0_lt_compat, pow_lt. lra. Qed.

Lemma eta_small : Py.eta < / 1000.
Proof.
  unfold Py.eta. apply Rinv_lt_contravar.
  - apply Rmult_lt_0_compat; [lra | apply pow_lt; lra].
  - apply Rlt_le_trans with (2 ^ 10).
    + replace (2 ^ 10) with 1024 by (simpl; ring). lra.
    + apply Rle_pow; [lra | lia].
Qed.

Lemma tiny_pos : 0 < tiny.
Proof. unfold tiny. apply Rinv_0_lt_compat, pow_lt. lra. Qed.

(** [2 ** -600] is above the underflow threshold. *)
Lemma tiny_float : Py.eta < Rabs tiny.
Proof.
  rewrite Rabs_right by (left; exact tiny_pos).
  unfold Py.eta, tiny. apply Rinv_lt_contravar.
  - apply Rmult_lt_0_compat; apply pow_lt; lra.
  - apply Rlt_pow; [lra | lia].
Qed.

(** Its square is not. *)
Lemma tiny_square : Rabs (tiny ^ 2) <= Py.eta.
Proof.
  rewrite Rabs_right by (apply Rle_ge, pow_le; left; exact tiny_pos).
  unfold Py.eta, tiny. rewrite pow_inv, <- pow_mult.
  apply Rinv_le_contravar.
  - apply pow_lt. lra.
  - apply Rle_pow; [lra | lia].
Qed.

Lemma small_pos : 0 < Py.small.
Proof. unfold Py.small. apply Rinv_0_lt_compat, pow_lt. lra. Qed.

Lemma small_bound : Py.small < / 1000.
Proof.
  unfold Py.small. apply Rinv_lt_contravar.
  - apply Rmult_lt_0_compat; [lra | apply pow_lt; lra].
  - apply Rlt_le_trans with (2 ^ 10).
    + replace (2 ^ 10) with 1024 by (simpl; ring). lra.
    + apply Rle_pow; [lra | lia].
Qed.

Lemma large_bound : 1000 < Py.large.
Proof.
  unfold Py.large. apply Rlt_le_trans with (2 ^ 10).
  - replace (2 ^ 10) with 1024 by (simpl; ring). lra.
  - apply Rle_pow; [lra | lia].
Qed.

Lemma inv_large : / Py.large = Py.small.
Proof. reflexivity. Qed.

(** Up to the fourth power of [2 ** -250] nothing underflows. *)
Lemma eta_lt_small_pow (n : nat) : (n <= 4)%nat -> Py.eta < Py.small ^ n.
Proof.
  intros Hn. unfold Py.eta, Py.small. rewrite pow_inv, <- pow_mult.
  apply Rinv_lt_contravar.
  - apply Rmult_lt_0_compat; apply pow_lt; lra.
  - apply Rlt_pow; [lra | lia].
Qed.

End Underflow.

Opaque Py.eta Py.small Py.large tiny.

Section Rounding.

(** A result above the threshold is exact. *)
Lemma rounded_exact (a b r : R) : Py.eta < Rabs r -> Py.rounded a b r = r.
Proof.
  intros H. unfold Py.rounded. rewrite (lt_true _ _ H). cbn [negb].
  now rewrite andb_false_r.
Qed.


(** A result of two floats at or below the threshold is [0.0]. *)
Lemma rounded_underflow (a b r : R) :
  Py.eta < Rabs a -> Py.eta < Rabs b -> Rabs r <= Py.eta ->
  Py.rounded a b r = 0.
Proof.
  intros Ha Hb Hr. unfold Py.rounded.
  now rewrite (lt_true _ _ Ha), (lt_true _ _ Hb), (lt_false _ _ Hr).
Qed.

Lemma rounded_opp_l (a b r : R) :
  Py.rounded (- a) b (- r) = - Py.rounded a b r.
Proof.
  unfold Py.rounded. rewrite !Rabs_Ropp.
  destruct (Py.lt Py.eta (Rabs a) && Py.lt Py.eta (Rabs b)
            && negb (Py.lt Py.eta (Rabs r)));
    [ring | reflexivity].
Qed.

Lemma rounded_opp_r (a b r : R) :
  Py.rounded a (- b) (- r) = - Py.rounded a b r.
Proof.
  unfold Py.rounded. rewrite !Rabs_Ropp.
  destruct (Py.lt Py.eta (Rabs a) && Py.lt Py.eta (Rabs b)
            && negb (Py.lt Py.eta (Rabs r)));
    [ring | reflexivity].
Qed.

(** Numbers of moderate magnitude: they are not zero, and their
    squares, products and quotients do not underflow. *)
Lemma moderate_bounds (a : R) : / 1000 <= Rabs a <= 1000 -> Py.moderate a.
Proof.
  intros H. pose proof small_bound. pose proof large_bound.
  unfold Py.moderate. lra.
Qed.

Lemma moderate_nonzero (a : R) : Py.moderate a -> a <> 0.
Proof.
  intros [H _] E. subst a. rewrite Rabs_R0 in H.
  pose proof small_pos. lra.
Qed.


Lemma moderate_square (a : R) : Py.moderate a -> Py.eta < a ^ 2.
Proof.
  intros [H _]. pose proof (eta_lt_small_pow 2 ltac:(lia)) as E.
  pose proof small_pos. rewrite <- (pow2_abs a).
  replace (Py.small ^ 2) with (Py.small * Py.small) in E by ring.
  replace (Rabs a ^ 2) with (Rabs a * Rabs a) by ring. nra.
Qed.

Lemma moderate_quotient_square (a b : R) :
  Py.moderate a -> Py.moderate b -> Py.eta < (a / b) ^ 2.
Proof.
  intros [Ha _] Hb. pose proof (moderate_nonzero b Hb) as Nb.
  destruct Hb as [Hb1 Hb2].
  pose proof (eta_lt_small_pow 4 ltac:(lia)) as E.
  pose proof small_pos as Hs.
  assert (Hinv : Py.small <= / Rabs b).
  { rewrite <- inv_large. apply Rinv_le_contravar; [| exact Hb2].
    apply Rabs_pos_lt. exact Nb. }
  assert (Hq : Py.small * Py.small <= Rabs (a / b)).
  { unfold Rdiv. rewrite Rabs_mult, Rabs_inv. nra. }
  rewrite <- (pow2_abs (a / b)).
  replace (Py.small ^ 4)
    with ((Py.small * Py.small) * (Py.small * Py.small)) in E by ring.
  replace (Rabs (a / b) ^ 2) with (Rabs (a / b) * Rabs (a / b)) by ring.
  assert (0 < Py.small * Py.small) by nra. nra.
Qed.

(** Moderate [sigma], [gamma] and [lambd] pass the three scalar
    divisions of [get_gabor_kernel]. *)
Lemma moderate_gabor_parameters (sigma gamma lambd : R) :
  Py.moderate sigma -> Py.moderate gamma -> Py.moderate lambd ->
  Py.eta < sigma ^ 2 /\ gamma <> 0 /\ Py.eta < (sigma / gamma) ^ 2
  /\ lambd <> 0.
Proof.
  intros Hs Hg Hl. split; [now apply moderate_square |].
  split; [now apply moderate_nonzero |].
  split; [now apply moderate_quotient_square | now apply moderate_nonzero].
Qed.

(** A number whose square is above the threshold is above it too. *)
Lemma square_above_eta (a : R) : Py.eta < a ^ 2 -> Py.eta < Rabs a.
Proof.
  intros H. destruct (Rlt_le_dec Py.eta (Rabs a)) as [Hlt | Hle]; [exact Hlt |].
  exfalso. pose proof eta_pos. pose proof eta_small.
  pose proof (Rabs_pos a). pose proof (pow2_abs a) as E.
  replace (Rabs a ^ 2) with (Rabs a * Rabs a) in E by ring. nra.
Qed.

Lemma pow_exact (a : R) (n : nat) :
  Py.eta < Rabs (a ^ n) -> Py.pow a n = a ^ n.
Proof. apply rounded_exact. Qed.

Lemma pow_square (a : R) : Py.eta < a ^ 2 -> Py.pow a 2 = a ^ 2.
Proof.
  intros H. apply pow_exact.
  rewrite Rabs_right; [exact H | apply Rle_ge, pow2_ge_0].
Qed.

Lemma pow_opp_2 (a : R) : Py.pow (- a) 2 = Py.pow a 2.
Proof.
  unfold Py.pow, Py.rounded. rewrite Rabs_Ropp.
  replace ((- a) ^ 2) with (a ^ 2) by ring. reflexivity.
Qed.

(** [a ** 0] is [1.0]. *)
Lemma pow_0_r (a : R) : Py.pow a 0 = 1.
Proof.
  apply pow_exact. rewrite pow_O, Rabs_R1.
  pose proof eta_small. lra.
Qed.


Lemma pow_tiny : Py.pow tiny 2 = 0.
Proof.
  apply rounded_underflow;
    [exact tiny_float | exact tiny_float | exact tiny_square].
Qed.


(** [a * 1.0] is [a]. *)
Lemma mul_1_r (a : R) : Py.mul a 1 = a.
Proof.
  unfold Py.mul, Py.rounded. rewrite Rmult_1_r.
  destruct (Py.lt Py.eta (Rabs a)); cbn [andb negb];
    [now rewrite andb_false_r | reflexivity].
Qed.



End Rounding.

(* ================================================================== *)
(** ** More on loops *)

Section Loops.

Lemma for_ext {A S : Type} (xs : list A) (s : S)
      (body body' : A -> S -> Py.result S) :
  (forall x t, body x t = body' x t) ->
  Py.for_ xs s body = Py.for_ xs s body'.
Proof.
  intros Hext. revert s. induction xs as [| x xs IH]; intros s.
  - reflexivity.
  - simpl. rewrite Hext. destruct (body' x s); simpl; [apply IH | reflexivity].
Qed.

(** A loop whose body returns up to iteration [k] and raises there,
    raises. *)
Lemma for_seq_raises {S : Type} (P : nat -> S -> Prop)
      (body : Z -> S -> Py.result S) (e : Py.exception)
      (len start k : nat) (s : S) :
  (start <= k < start + len)%nat ->
  P start s ->
  (forall j t, (start <= j < k)%nat -> P j t ->
               exists t', body (Z.of_nat j) t = Py.Return t'
                          /\ P (Datatypes.S j) t') ->
  (forall t, P k t -> body (Z.of_nat k) t = Py.Raise e) ->
  Py.for_ (map Z.of_nat (seq start len)) s body = Py.Raise e.
Proof.
  revert start s. induction len as [| len IH]; intros start s Hk H0 Hstep Hfail.
  - lia.
  - simpl. destruct (Nat.eq_dec start k) as [E | N].
    + subst k. now rewrite (Hfail s H0).
    + destruct (Hstep start s ltac:(lia) H0) as [t' [Hb Ht']].
      rewrite Hb. simpl. apply IH; try assumption; try lia.
      intros j t Hj. apply Hstep. lia.
Qed.

(** A loop over no iteration returns its state. *)
Lemma for_range_nonpos {S : Type} (n : Z) (s : S)
      (body : Z -> S -> Py.result S) :
  (n <= 0)%Z -> Py.for_ (Py.range n) s body = Py.Return s.
Proof.
  intros Hn. unfold Py.range.
  replace (Z.to_nat n) with 0%nat by lia. reflexivity.
Qed.

(** A loop with at least one iteration whose first body raises, raises. *)
Lemma for_range_first_raises {S : Type} (n : Z) (s : S)
      (body : Z -> S -> Py.result S) (e : Py.exception) :
  (1 <= n)%Z -> body 0%Z s = Py.Raise e ->
  Py.for_ (Py.range n) s body = Py.Raise e.
Proof.
  intros Hn Hb. unfold Py.range.
  apply (for_seq_raises (fun k t => t = s) body e (Z.to_nat n) 0 0 s).
  - lia.
  - reflexivity.
  - intros j t Hj. lia.
  - intros t Ht. subst t. exact Hb.
Qed.



End Loops.

(* ================================================================== *)
(** ** Facts about the NumPy layer *)

Section NpFacts.

Lemma sgn_pos (r : R) : 0 < r -> Np.sgn r = Gt.
Proof.
  intros H. unfold Np.sgn.
  destruct (total_order_T r 0) as [[L | E] | G]; [lra | lra | reflexivity].
Qed.


Lemma sgn_zero : Np.sgn 0 = Eq.
Proof.
  unfold Np.sgn.
  destruct (total_order_T 0 0) as [[L | E] | G]; [lra | reflexivity | lra].
Qed.

Lemma div_fin (x y : R) : y <> 0 -> Np.div (Fin x) (Fin y) = Fin (x / y).
Proof.
  intros Hy. unfold Np.div.
  destruct (Req_dec_T y 0); [contradiction | reflexivity].
Qed.

Lemma div_fin_zero (x : R) :
  Np.div (Fin x) (Fin 0) = Np.signed_inf (Np.sgn x).
Proof.
  unfold Np.div. destruct (Req_dec_T 0 0) as [_ | N]; [reflexivity | now elim N].
Qed.

Lemma power_fin_nonneg (x : R) (k : Z) :
  (0 <= k)%Z -> Np.power (Fin x) k = Fin (x ^ Z.to_nat k).
Proof.
  intros Hk. unfold Np.power.
  replace (k <? 0)%Z with false by (symmetry; apply Z.ltb_ge; exact Hk).
  simpl. f_equal. destruct k as [| p | p]; simpl.
  - reflexivity.
  - reflexivity.
  - lia.
Qed.

Lemma hypot_fin (x y : R) :
  Np.hypot (Fin x) (Fin y) = Fin (sqrt (x * x + y * y)).
Proof. reflexivity. Qed.

Lemma log_fin_pos (r : R) : 0 < r -> Np.log (Fin r) = Fin (ln r).
Proof. intros H. unfold Np.log. now rewrite sgn_pos. Qed.

(** *** Lists *)

Lemma set_nth_length {A : Type} (n : nat) (v : A) (l : list A) :
  List.length (Np.set_nth n v l) = List.length l.
Proof.
  revert n. induction l as [| h t IH]; intros [| n]; simpl; auto.
Qed.

Lemma set_nth_same {A : Type} (n : nat) (v : A) (l : list A) :
  (n < List.length l)%nat -> nth_error (Np.set_nth n v l) n = Some v.
Proof.
  revert n. induction l as [| h t IH]; intros [| n] H; simpl in *;
    try lia; auto. apply IH. lia.
Qed.

Lemma set_nth_other {A : Type} (n m : nat) (v : A) (l : list A) :
  n <> m -> nth_error (Np.set_nth n v l) m = nth_error l m.
Proof.
  revert n m. induction l as [| h t IH]; intros [| n] [| m] H; simpl;
    auto; try congruence.
Qed.

Lemma set_nth_app {A : Type} (pre post : list A) (x v : A) :
  Np.set_nth (List.length pre) v (pre ++ x :: post) = pre ++ v :: post.
Proof. induction pre as [| h t IH]; simpl; [reflexivity | now rewrite IH]. Qed.

Lemma nth_app_middle {A : Type} (pre post : list A) (x d : A) :
  nth (List.length pre) (pre ++ x :: post) d = x.
Proof. induction pre as [| h t IH]; simpl; auto. Qed.

Lemma zip_with_length {A B C : Type} (f : A -> B -> C) xs ys :
  List.length (Np.zip_with f xs ys)
  = Nat.min (List.length xs) (List.length ys).
Proof.
  revert ys. induction xs as [| x xs IH]; intros [| y ys]; simpl; auto.
Qed.

Lemma zip_with_nth_error {A B C : Type} (f : A -> B -> C) xs ys n x y :
  nth_error xs n = Some x -> nth_error ys n = Some y ->
  nth_error (Np.zip_with f xs ys) n = Some (f x y).
Proof.
  revert ys n. induction xs as [| a xs IH]; intros [| b ys] [| n] Hx Hy;
    simpl in *; try discriminate.
  - congruence.
  - now apply IH.
Qed.

Lemma nth_error_map_seq {A : Type} (f : nat -> A) (len n : nat) :
  (n < len)%nat -> nth_error (map f (seq 0 len)) n = Some (f n).
Proof.
  intros H. rewrite nth_error_map, nth_error_seq.
  destruct (Nat.ltb_spec n len); [reflexivity | lia].
Qed.

(** *** Arrays *)

Lemma adjust_index_in_range (i : nat) (n : nat) :
  (i < n)%nat -> Np.adjust_index (Z.of_nat i) n = Py.Return i.
Proof.
  intros H. unfold Np.adjust_index.
  replace (Z.of_nat i <? 0)%Z with false by (symmetry; apply Z.ltb_ge; lia).
  replace (0 <=? Z.of_nat i)%Z with true by (symmetry; apply Z.leb_le; lia).
  replace (Z.of_nat i <? Z.of_nat n)%Z with true
    by (symmetry; apply Z.ltb_lt; lia).
  simpl. now rewrite Nat2Z.id.
Qed.

(** No index is valid on an axis of length zero. *)
Lemma adjust_index_empty (i : Z) :
  Np.adjust_index i 0 = Py.Raise Py.IndexError.
Proof.
  unfold Np.adjust_index. simpl Z.of_nat.
  destruct (i <? 0)%Z eqn:Hneg.
  - replace (0 <=? i + 0)%Z with false; [reflexivity |].
    symmetry. apply Z.leb_gt. apply Z.ltb_lt in Hneg. lia.
  - replace (i <? 0)%Z with false. now rewrite andb_false_r.
Qed.

Lemma itemset_in_range (a : Np.ndarray2) (i j : nat) (v : Np.float64) :
  (i < List.length a)%nat -> (j < List.length (nth i a []))%nat ->
  Np.itemset a (Z.of_nat i) (Z.of_nat j) v = Py.Return (Np.set_item a i j v).
Proof.
  intros Hi Hj. unfold Np.itemset.
  rewrite (adjust_index_in_range i _ Hi). simpl.
  rewrite (adjust_index_in_range j _ Hj). reflexivity.
Qed.

Lemma item_set_same (a : Np.ndarray2) (i j : nat) (v : Np.float64) :
  (i < List.length a)%nat -> (j < List.length (nth i a []))%nat ->
  Np.item (Np.set_item a i j v) i j = Some v.
Proof.
  intros Hi Hj. unfold Np.item, Np.set_item.
  rewrite set_nth_same by exact Hi. now apply set_nth_same.
Qed.

Lemma item_zip2d f (a b : Np.ndarray2) (i j : nat) (x y : Np.float64) :
  Np.item a i j = Some x -> Np.item b i j = Some y ->
  Np.item (Np.zip2d f a b) i j = Some (f x y).
Proof.
  unfold Np.item, Np.zip2d. intros Ha Hb.
  destruct (nth_error a i) as [ra |] eqn:Era; [| discriminate].
  destruct (nth_error b i) as [rb |] eqn:Erb; [| discriminate].
  rewrite (zip_with_nth_error _ _ _ _ _ _ Era Erb).
  now apply zip_with_nth_error.
Qed.

Lemma item_map2d f (a : Np.ndarray2) (i j : nat) (x : Np.float64) :
  Np.item a i j = Some x -> Np.item (Np.map2d f a) i j = Some (f x).
Proof.
  unfold Np.item, Np.map2d. intros Ha. rewrite nth_error_map.
  destruct (nth_error a i) as [ra |]; [| discriminate]. simpl.
  rewrite nth_error_map. now rewrite Ha.
Qed.

Lemma has_shape_map2d f (a : Np.ndarray2) (rows cols : nat) :
  Np.has_shape a rows cols -> Np.has_shape (Np.map2d f a) rows cols.
Proof.
  unfold Np.has_shape, Np.map2d. intros [Hl Hr]. split.
  - now rewrite length_map.
  - apply Forall_map. eapply Forall_impl; [| exact Hr].
    intros row Hrow. simpl. now rewrite length_map.
Qed.

Lemma has_shape_zip2d f (a b : Np.ndarray2) (rows cols : nat) :
  Np.has_shape a rows cols -> Np.has_shape b rows cols ->
  Np.has_shape (Np.zip2d f a b) rows cols.
Proof.
  unfold Np.has_shape, Np.zip2d. intros [Hla Hra] [Hlb Hrb]. split.
  - rewrite zip_with_length, Hla, Hlb. apply Nat.min_id.
  - clear Hla Hlb. revert b Hrb.
    induction Hra as [| ra a Hra1 Hra IH]; intros b Hrb.
    + constructor.
    + destruct b as [| rb b]; [constructor |].
      apply Forall_cons_iff in Hrb. destruct Hrb as [Hrb1 Hrb].
      simpl. constructor.
      * rewrite zip_with_length, Hra1, Hrb1. apply Nat.min_id.
      * now apply IH.
Qed.

Lemma has_shape_set (a : Np.ndarray2) (rows cols i j : nat) v :
  Np.has_shape a rows cols ->
  Np.has_shape (Np.set_item a i j v) rows cols.
Proof.
  unfold Np.has_shape, Np.set_item. intros [Hl Hr]. split.
  - now rewrite set_nth_length.
  - clear Hl. revert i. induction Hr as [| r a Hr1 Hr IH]; intros i.
    + destruct i; constructor.
    + destruct i as [| i]; simpl.
      * constructor; [now rewrite set_nth_length | exact Hr].
      * constructor; [exact Hr1 | apply IH].
Qed.

(** The coordinates [np.arange(-c / 2, c / 2)] of an axis of [c] cells. *)
Lemma arange_half (c : Z) :
  Np.arange (IZR (- c) / 2) (IZR c / 2)
  = map (fun k => Fin (IZR (- c) / 2 + INR k)) (seq 0 (Z.to_nat c)).
Proof.
  unfold Np.arange.
  replace (IZR c / 2 - IZR (- c) / 2) with (IZR c)
    by (rewrite opp_IZR; lra).
  rewrite (Zceil_eq c (IZR c)) by lra. reflexivity.
Qed.

End NpFacts.

(* ================================================================== *)
(** ** Filling a zero grid cell by cell *)

Section FillLoops.

Variable cell : Z -> Z -> Np.float64.

Lemma partial_row_length (i W m : nat) :
  (m <= W)%nat -> List.length (partial_row cell i W m) = W.
Proof.
  intros H. unfold partial_row.
  rewrite length_app, length_map, length_seq, repeat_length. lia.
Qed.

Lemma partial_row_full (i W : nat) :
  partial_row cell i W W
  = map (fun j => cell (Z.of_nat i) (Z.of_nat j)) (seq 0 W).
Proof.
  unfold partial_row. rewrite Nat.sub_diag. simpl. apply app_nil_r.
Qed.

Lemma partial_row_step (i W m : nat) :
  (m < W)%nat ->
  Np.set_nth m (cell (Z.of_nat i) (Z.of_nat m)) (partial_row cell i W m)
  = partial_row cell i W (S m).
Proof.
  intros H. unfold partial_row.
  replace (W - m)%nat with (S (W - S m)) by lia. simpl repeat.
  pose proof (set_nth_app
                (map (fun j => cell (Z.of_nat i) (Z.of_nat j)) (seq 0 m))
                (repeat (Fin 0) (W - S m)) (Fin 0)
                (cell (Z.of_nat i) (Z.of_nat m))) as E.
  rewrite length_map, length_seq in E. rewrite E.
  rewrite seq_S, map_app. simpl. now rewrite <- app_assoc.
Qed.

Lemma partial_grid_full (H W : nat) : partial_grid cell H W H = full_grid cell H W.
Proof.
  unfold partial_grid, full_grid. rewrite Nat.sub_diag. simpl.
  rewrite app_nil_r. apply map_ext. intros i. apply partial_row_full.
Qed.

(** The inner loop writes row [i]. *)
Lemma fill_row (H W i : nat) :
  (i < H)%nat ->
  Py.for_ (Py.range (Z.of_nat W)) (partial_grid cell H W i)
          (fun j kernel => Np.itemset kernel (Z.of_nat i) j
                                      (cell (Z.of_nat i) j))
  = Py.Return (partial_grid cell H W (S i)).
Proof.
  intros Hi. unfold Py.range. rewrite Nat2Z.id.
  set (done := map (fun i => partial_row cell i W W) (seq 0 i)).
  set (rest := repeat (repeat (Fin 0) W) (H - S i)).
  assert (Hdone : List.length done = i).
  { unfold done. now rewrite length_map, length_seq. }
  destruct (for_seq_invariant
              (fun m kernel => (m <= W)%nat /\
                               kernel = done ++ partial_row cell i W m :: rest)
              (fun j kernel => Np.itemset kernel (Z.of_nat i) j
                                          (cell (Z.of_nat i) j))
              W 0 (partial_grid cell H W i)) as [k' [Hfor [_ Hk']]].
  - split; [lia |]. unfold partial_grid. fold done.
    replace (H - i)%nat with (S (H - S i)) by lia. simpl repeat. fold rest.
    unfold partial_row. now rewrite Nat.sub_0_r.
  - intros m t Hm [_ Ht]. subst t.
    assert (Hrow : nth i (done ++ partial_row cell i W m :: rest) []
                   = partial_row cell i W m).
    { rewrite <- Hdone. apply nth_app_middle. }
    exists (done ++ partial_row cell i W (S m) :: rest). split; [| split; [lia | reflexivity]].
    rewrite itemset_in_range.
    + unfold Np.set_item. rewrite Hrow, partial_row_step by lia.
      rewrite <- Hdone at 1. now rewrite set_nth_app.
    + rewrite length_app, Hdone. simpl. lia.
    + rewrite Hrow, partial_row_length; lia.
  - rewrite Hfor, Hk'. f_equal. unfold partial_grid.
    rewrite seq_S, map_app. simpl. fold done. fold rest.
    now rewrite <- app_assoc.
Qed.

(** The two nested loops write the whole grid, and never raise. *)
Lemma fill_grid (H W : nat) :
  Py.for_ (Py.range (Z.of_nat H)) (repeat (repeat (Fin 0) W) H)
          (fun i kernel =>
             Py.for_ (Py.range (Z.of_nat W)) kernel
                     (fun j kernel => Np.itemset kernel i j (cell i j)))
  = Py.Return (full_grid cell H W).
Proof.
  unfold Py.range at 1. rewrite Nat2Z.id.
  destruct (for_seq_invariant
              (fun k kernel => kernel = partial_grid cell H W k)
              (fun i kernel =>
                 Py.for_ (Py.range (Z.of_nat W)) kernel
                         (fun j kernel => Np.itemset kernel i j (cell i j)))
              H 0 (repeat (repeat (Fin 0) W) H)) as [k' [Hfor Hk']].
  - unfold partial_grid. simpl. now rewrite Nat.sub_0_r.
  - intros k t Hk Ht. subst t. exists (partial_grid cell H W (S k)).
    split; [| reflexivity]. apply fill_row. lia.
  - rewrite Hfor, Hk'. simpl. now rewrite partial_grid_full.
Qed.

(** The same for the bounds [range(height)] and [range(width)] of
    non-negative Python integers. *)
Lemma fill_grid_Z (height width : Z) :
  (0 <= height)%Z -> (0 <= width)%Z ->
  Py.for_ (Py.range height)
          (repeat (repeat (Fin 0) (Z.to_nat width)) (Z.to_nat height))
          (fun i kernel =>
             Py.for_ (Py.range width) kernel
                     (fun j kernel => Np.itemset kernel i j (cell i j)))
  = Py.Return (full_grid cell (Z.to_nat height) (Z.to_nat width)).
Proof.
  intros Hh Hw.
  pose proof (fill_grid (Z.to_nat height) (Z.to_nat width)) as E.
  rewrite (Z2Nat.id height Hh), (Z2Nat.id width Hw) in E. exact E.
Qed.

Lemma full_grid_shape (H W : nat) : Np.has_shape (full_grid cell H W) H W.
Proof.
  unfold Np.has_shape, full_grid. split.
  - now rewrite length_map, length_seq.
  - apply Forall_map. apply Forall_forall. intros i _.
    now rewrite length_map, length_seq.
Qed.

Lemma full_grid_item (H W i j : nat) :
  (i < H)%nat -> (j < W)%nat ->
  Np.item (full_grid cell H W) i j = Some (cell (Z.of_nat i) (Z.of_nat j)).
Proof.
  intros Hi Hj. unfold Np.item, full_grid.
  rewrite nth_error_map_seq by exact Hi.
  now rewrite nth_error_map_seq by exact Hj.
Qed.

End FillLoops.

(* ================================================================== *)
(** ** The Gabor kernel *)

Section GaborKernel.

Variables (width height : Z) (sigma theta lambd gamma psi : R).

(** On the finite cosine and sine of a finite angle every cell is finite,
    and is the Gabor equation evaluated in the source's order. *)
Lemma gabor_cell_fin (hw hh : Z) (c s cx cy cs : R) (i j : Z) :
  gabor_cell hw hh (Fin c) (Fin s) cx cy cs psi i j
  = Fin (let y := IZR (i - hh) in
         let x := IZR (j - hw) in
         let xr := x * c + y * s in
         let yr := IZR (- (j - hw)) * s + y * c in
         exp (cx * xr * xr + cy * yr * yr) * cos (cs * xr + psi)).
Proof. reflexivity. Qed.

(** Negative dimensions stop the call at [np.zeros]. *)
Lemma get_gabor_kernel_negative_size :
  (width < 0)%Z \/ (height < 0)%Z ->
  get_gabor_kernel (width, height) sigma theta lambd gamma psi
  = Py.Raise Py.ValueError.
Proof.
  intros Hneg. unfold get_gabor_kernel, Np.zeros.
  replace ((height <? 0)%Z || (width <? 0)%Z) with true; [reflexivity |].
  symmetry. apply orb_true_iff.
  destruct Hneg as [H | H]; [right | left]; now apply Z.ltb_lt.
Qed.

(** The outcomes of a call: the allocation, then the scalar divisions of
    lines 35-37 in their order, then the loops, which write every cell. *)
Lemma get_gabor_kernel_outcome :
  get_gabor_kernel (width, height) sigma theta lambd gamma psi
  = if ((height <? 0) || (width <? 0))%Z then Py.Raise Py.ValueError
    else if Req_dec_T (Py.pow sigma 2) 0 then Py.Raise Py.ZeroDivisionError
    else if Req_dec_T gamma 0 then Py.Raise Py.ZeroDivisionError
    else if Req_dec_T (Py.pow (Py.rounded sigma gamma (sigma / gamma)) 2) 0
    then Py.Raise Py.ZeroDivisionError
    else if Req_dec_T lambd 0 then Py.Raise Py.ZeroDivisionError
    else Py.Return
           (full_grid
              (gabor_cell (width / 2) (height / 2)
                          (Fin (cos theta)) (Fin (sin theta))
                          (- (1 / 2) / Py.pow sigma 2)
                          (- (1 / 2)
                           / Py.pow (Py.rounded sigma gamma (sigma / gamma)) 2)
                          (PI * 2 / lambd) psi)
              (Z.to_nat height) (Z.to_nat width)).
Proof.
  destruct ((height <? 0) || (width <? 0))%Z eqn:Hneg.
  - apply get_gabor_kernel_negative_size.
    apply orb_true_iff in Hneg.
    destruct Hneg as [H | H]; apply Z.ltb_lt in H; [now right | now left].
  - unfold get_gabor_kernel, Np.zeros. rewrite Hneg. cbn [Py.bind].
    apply orb_false_iff in Hneg. destruct Hneg as [Hh Hw].
    apply Z.ltb_ge in Hh. apply Z.ltb_ge in Hw.
    rewrite (int_half width Hw), (int_half height Hh).
    unfold Py.truediv, Py.truediv_floats.
    destruct (Req_dec_T (Py.pow sigma 2) 0); [reflexivity |]. cbn [Py.bind].
    destruct (Req_dec_T gamma 0); [reflexivity |]. cbn [Py.bind].
    destruct (Req_dec_T (Py.pow (Py.rounded sigma gamma (sigma / gamma)) 2) 0);
      [reflexivity |].
    cbn [Py.bind].
    destruct (Req_dec_T lambd 0); [reflexivity |]. cbn [Py.bind].
    cbn [Np.cos Np.sin].
    now apply fill_grid_Z.
Qed.

(** With non-negative dimensions, a non-zero [gamma] and [lambd], and a
    [sigma] such that neither [sigma ** 2] nor [(sigma / gamma) ** 2]
    underflows, no step raises and the loops write every cell. *)
Lemma get_gabor_kernel_returns :
  (0 <= width)%Z -> (0 <= height)%Z ->
  Py.eta < sigma ^ 2 -> gamma <> 0 -> Py.eta < (sigma / gamma) ^ 2 ->
  lambd <> 0 ->
  get_gabor_kernel (width, height) sigma theta lambd gamma psi
  = Py.Return
      (full_grid
         (gabor_cell (width / 2) (height / 2) (Fin (cos theta)) (Fin (sin theta))
                     (- (1 / 2) / sigma ^ 2)
                     (- (1 / 2) / (sigma / gamma) ^ 2)
                     (PI * 2 / lambd) psi)
         (Z.to_nat height) (Z.to_nat width)).
Proof.
  intros Hw Hh Hs Hg Hq Hl. rewrite get_gabor_kernel_outcome.
  replace ((height <? 0) || (width <? 0))%Z with false
    by (symmetry; apply orb_false_iff; split; apply Z.ltb_ge; lia).
  rewrite (rounded_exact sigma gamma _ (square_above_eta _ Hq)).
  rewrite (pow_square _ Hs), (pow_square _ Hq).
  pose proof eta_pos.
  destruct (Req_dec_T (sigma ^ 2) 0); [lra |].
  destruct (Req_dec_T gamma 0); [contradiction |].
  destruct (Req_dec_T ((sigma / gamma) ^ 2) 0); [lra |].
  destruct (Req_dec_T lambd 0); [contradiction | reflexivity].
Qed.



End GaborKernel.

(* ================================================================== *)
(** ** Claims about the Gabor kernel *)

(** C2, the claim as stated fails: [sigma = 2 ** -600] (about
    [2.4e-181]) is not zero, but [sigma ** 2] underflows to [0.0] and
    line 35 raises [ZeroDivisionError]; no grid is returned. *)
Lemma C2_counterexample_sigma_square_underflows :
  (0 < 3)%Z /\ tiny <> 0 /\ (1 : R) <> 0 /\ (3 : R) <> 0
  /\ get_gabor_kernel (3, 3)%Z tiny 0 3 1 0
     = Py.Raise Py.ZeroDivisionError.
Proof.
  split; [lia |]. split; [pose proof tiny_pos; lra |].
  split; [lra |]. split; [lra |].
  rewrite get_gabor_kernel_outcome.
  change ((3 <? 0) || (3 <? 0))%Z with false. cbv iota.
  rewrite pow_tiny.
  destruct (Req_dec_T 0 0) as [_ | N]; [reflexivity | now elim N].
Qed.

(** C2, as amended -- For a size [(width, height)] with positive
    dimensions and [sigma], [gamma] and [lambd] of moderate magnitude
    (between [2 ** -250] and [2 ** 250] in absolute value, so that no
    scalar step underflows or overflows), [get_gabor_kernel] returns a
    grid of shape [height x width] whose cell [(i, j)] is
    [exp(-0.5 xr^2 / sigma^2 - 0.5 yr^2 / (sigma / gamma)^2)
     * cos((2 pi / lambd) xr + psi)], where [y = i - floor(height / 2)],
    [x = j - floor(width / 2)], [xr = x cos(theta) + y sin(theta)] and
    [yr = - x sin(theta) + y cos(theta)]: the floored half sizes are used
    as they are. *)
Theorem C2_gabor_kernel_formula
        (width height : Z) (sigma theta lambd gamma psi : R) :
  (0 < width)%Z -> (0 < height)%Z ->
  Py.moderate sigma -> Py.moderate gamma -> Py.moderate lambd ->
  exists kernel,
    get_gabor_kernel (width, height) sigma theta lambd gamma psi
    = Py.Return kernel
    /\ Np.has_shape kernel (Z.to_nat height) (Z.to_nat width)
    /\ forall i j : Z,
        (0 <= i < height)%Z -> (0 <= j < width)%Z ->
        let y := IZR (i - height / 2) in
        let x := IZR (j - width / 2) in
        let xr := x * cos theta + y * sin theta in
        let yr := - x * sin theta + y * cos theta in
        Np.item kernel (Z.to_nat i) (Z.to_nat j)
        = Some (Fin (exp (- (1 / 2) * xr ^ 2 / sigma ^ 2
                          - (1 / 2) * yr ^ 2 / (sigma / gamma) ^ 2)
                     * cos (2 * PI / lambd * xr + psi))).
Proof.
  intros Hw Hh Ms Mg Ml.
  destruct (moderate_gabor_parameters _ _ _ Ms Mg Ml) as [Hs2 [Hg [Hq Hl]]].
  pose proof (moderate_nonzero _ Ms) as Hs.
  eexists. split; [| split].
  - apply get_gabor_kernel_returns; assumption || lia.
  - apply full_grid_shape.
  - intros i j Hi Hj y x xr yr.
    rewrite full_grid_item by lia.
    rewrite !Z2Nat.id by lia. rewrite gabor_cell_fin. cbv zeta.
    rewrite opp_IZR. fold y x. fold xr.
    replace (- x * sin theta + y * cos theta) with yr by reflexivity.
    do 2 f_equal. f_equal; f_equal.
    + unfold yr. field. split; assumption.
    + field. exact Hl.
Qed.

(** The centre cell of the 5 x 5 kernel with [sigma = 1], [theta = 0],
    [lambd = 3], [gamma = 1], [psi = 0] is [exp(0) cos(0) = 1]. *)
Lemma C2_gabor_kernel_formula_witness :
  (0 < 5)%Z /\ Py.moderate 1 /\ Py.moderate 3 /\
  exists kernel,
    get_gabor_kernel (5, 5)%Z 1 0 3 1 0 = Py.Return kernel
    /\ Np.has_shape kernel 5 5
    /\ Np.item kernel 2 2 = Some (Fin 1).
Proof.
  assert (M1 : Py.moderate 1)
    by (apply moderate_bounds; rewrite Rabs_right; lra).
  assert (M3 : Py.moderate 3)
    by (apply moderate_bounds; rewrite Rabs_right; lra).
  split; [lia |]. split; [exact M1 |]. split; [exact M3 |].
  destruct (C2_gabor_kernel_formula 5 5 1 0 3 1 0) as [kernel [Hk [Hshape Hcell]]];
    try lia; try assumption.
  exists kernel. split; [exact Hk |]. split; [exact Hshape |].
  specialize (Hcell 2%Z 2%Z ltac:(lia) ltac:(lia)). cbv zeta in Hcell.
  change (Z.to_nat 2) with 2%nat in Hcell. rewrite Hcell.
  change (2 - 5 / 2)%Z with 0%Z.
  do 2 f_equal.
  replace (- (1 / 2) * (0 * cos 0 + 0 * sin 0) ^ 2 / 1 ^ 2 -
           1 / 2 * (- 0 * sin 0 + 0 * cos 0) ^ 2 / (1 / 1) ^ 2) with 0
    by (simpl; field).
  replace (2 * PI / 3 * (0 * cos 0 + 0 * sin 0) + 0) with 0 by (simpl; field).
  rewrite exp_0, cos_0. ring.
Defined.

(** C8, the claim as stated fails: with [gamma = 1], [psi = 0] and the
    non-zero [sigma = 2 ** -600], [sigma ** 2] underflows to [0.0], line
    35 raises [ZeroDivisionError] and there is no grid to be symmetric. *)
Lemma C8_counterexample_no_grid :
  (0 < 5)%Z /\ tiny <> 0 /\ (3 : R) <> 0
  /\ get_gabor_kernel (5, 5)%Z tiny (PI / 4) 3 1 0
     = Py.Raise Py.ZeroDivisionError.
Proof.
  split; [lia |]. split; [pose proof tiny_pos; lra |]. split; [lra |].
  rewrite get_gabor_kernel_outcome.
  change ((5 <? 0) || (5 <? 0))%Z with false. cbv iota.
  rewrite pow_tiny.
  destruct (Req_dec_T 0 0) as [_ | N]; [reflexivity | now elim N].
Qed.

(** C8, as amended -- For [gamma = 1], [psi = 0], positive dimensions
    and [sigma] and [lambd] of moderate magnitude (between [2 ** -250]
    and [2 ** 250] in absolute value), the returned grid is point
    symmetric about the centre offset: two cells whose centred offsets
    are [(x, y)] and [(-x, -y)] hold the same value. *)
Theorem C8_gabor_kernel_point_symmetry
        (width height : Z) (sigma theta lambd : R) :
  (0 < width)%Z -> (0 < height)%Z ->
  Py.moderate sigma -> Py.moderate lambd ->
  exists kernel,
    get_gabor_kernel (width, height) sigma theta lambd 1 0 = Py.Return kernel
    /\ forall i j i' j' : Z,
        (0 <= i < height)%Z -> (0 <= j < width)%Z ->
        (0 <= i' < height)%Z -> (0 <= j' < width)%Z ->
        (i' - height / 2 = - (i - height / 2))%Z ->
        (j' - width / 2 = - (j - width / 2))%Z ->
        exists v,
          Np.item kernel (Z.to_nat i) (Z.to_nat j) = Some v
          /\ Np.item kernel (Z.to_nat i') (Z.to_nat j') = Some v.
Proof.
  intros Hw Hh Ms Ml.
  assert (M1 : Py.moderate 1)
    by (apply moderate_bounds; rewrite Rabs_right; lra).
  destruct (moderate_gabor_parameters _ _ _ Ms M1 Ml) as [Hs [Hg [Hq Hl]]].
  eexists. split.
  - apply get_gabor_kernel_returns; try assumption; lia.
  - intros i j i' j' Hi Hj Hi' Hj' Ey Ex. eexists. split.
    + rewrite full_grid_item by lia. reflexivity.
    + rewrite full_grid_item by lia.
      rewrite !Z2Nat.id by lia. rewrite !gabor_cell_fin. cbv zeta.
      rewrite Ey, Ex. rewrite !opp_IZR.
      set (y := IZR (i - height / 2)). set (x := IZR (j - width / 2)).
      do 2 f_equal. f_equal.
      * f_equal. ring.
      * rewrite !Rplus_0_r.
        replace (PI * 2 / lambd * (- x * cos theta + - y * sin theta))
          with (- (PI * 2 / lambd * (x * cos theta + y * sin theta)))
          by (unfold Rdiv; ring).
        now rewrite cos_neg.
Qed.

(** The corners [(0, 0)] and [(2, 2)] of a 3 x 3 kernel have the offsets
    [(-1, -1)] and [(1, 1)] and hold the same value. *)
Lemma C8_gabor_kernel_point_symmetry_witness :
  (0 < 3)%Z /\ Py.moderate 1 /\ Py.moderate 3 /\
  exists kernel,
    get_gabor_kernel (3, 3)%Z 1 (PI / 4) 3 1 0 = Py.Return kernel
    /\ exists v, Np.item kernel 0 0 = Some v /\ Np.item kernel 2 2 = Some v.
Proof.
  assert (M1 : Py.moderate 1)
    by (apply moderate_bounds; rewrite Rabs_right; lra).
  assert (M3 : Py.moderate 3)
    by (apply moderate_bounds; rewrite Rabs_right; lra).
  split; [lia |]. split; [exact M1 |]. split; [exact M3 |].
  destruct (C8_gabor_kernel_point_symmetry 3 3 1 (PI / 4) 3)
    as [kernel [Hk Hsym]]; try lia; try assumption.
  exists kernel. split; [exact Hk |].
  apply (Hsym 0%Z 0%Z 2%Z 2%Z); try lia; reflexivity.
Defined.



(* ================================================================== *)
(** ** Coordinate grids *)

Section Grids.

Lemma meshgrid_shape (xs ys : Np.ndarray1) :
  Np.has_shape (fst (Np.meshgrid xs ys)) (List.length ys) (List.length xs)
  /\ Np.has_shape (snd (Np.meshgrid xs ys)) (List.length ys) (List.length xs).
Proof.
  unfold Np.meshgrid, Np.has_shape. simpl. split; split.
  - now rewrite length_map.
  - apply Forall_map, Forall_forall. intros; reflexivity.
  - now rewrite length_map.
  - apply Forall_map, Forall_forall. intros. now rewrite length_map.
Qed.

Lemma meshgrid_item (xs ys : Np.ndarray1) (i j : nat) (x y : Np.float64) :
  nth_error xs j = Some x -> nth_error ys i = Some y ->
  Np.item (fst (Np.meshgrid xs ys)) i j = Some x
  /\ Np.item (snd (Np.meshgrid xs ys)) i j = Some y.
Proof.
  intros Hx Hy. unfold Np.meshgrid, Np.item. simpl.
  rewrite !nth_error_map, Hy. simpl. split; [exact Hx |].
  rewrite nth_error_map, Hx. reflexivity.
Qed.

(** The coordinates of an axis of [c] cells, scaled by [1 / d]. *)
Lemma axis_coords (c d : Z) :
  map (fun a => Np.div a (Fin (IZR d))) (Np.arange (IZR (- c) / 2) (IZR c / 2))
  = map (fun k => Np.div (Fin (IZR (- c) / 2 + INR k)) (Fin (IZR d)))
        (seq 0 (Z.to_nat c)).
Proof. rewrite arange_half. now rewrite map_map. Qed.

Lemma axis_coords_length (c d : Z) :
  List.length (map (fun a => Np.div a (Fin (IZR d)))
                   (Np.arange (IZR (- c) / 2) (IZR c / 2)))
  = Z.to_nat c.
Proof. now rewrite axis_coords, length_map, length_seq. Qed.

(** Cell [k] of an axis scaled by a non-zero [d]. *)
Lemma axis_coords_nth (c d k : Z) :
  (0 <= k < c)%Z -> d <> 0%Z ->
  nth_error (map (fun a => Np.div a (Fin (IZR d)))
                 (Np.arange (IZR (- c) / 2) (IZR c / 2)))
            (Z.to_nat k)
  = Some (Fin ((IZR (- c) / 2 + IZR k) / IZR d)).
Proof.
  intros Hk Hd. rewrite axis_coords.
  rewrite nth_error_map_seq by lia.
  rewrite div_fin by (apply not_0_IZR; exact Hd).
  rewrite INR_IZR_INZ, Z2Nat.id by lia. reflexivity.
Qed.

End Grids.

(* ================================================================== *)
(** ** The low-pass filter *)

Section LowPass.

Variables (cols rows : Z) (cutoff : R) (n : Z).

Lemma low_pass_guard_cutoff :
  cutoff < 0 \/ 1 / 2 < cutoff ->
  _low_pass_filter (cols, rows) cutoff n
  = Py.Raise (Py.Exception_ "Cutoff frequency must be between 0 and 0.5.").
Proof.
  intros H. unfold _low_pass_filter.
  replace (Py.lt cutoff 0 || Py.lt (1 / 2) cutoff) with true; [reflexivity |].
  symmetry. apply orb_true_iff.
  destruct H as [H | H]; [left | right]; now apply lt_true.
Qed.

Lemma low_pass_guard_order :
  0 <= cutoff <= 1 / 2 -> (n < 1)%Z ->
  _low_pass_filter (cols, rows) cutoff n
  = Py.Raise (Py.Exception_ "n must be an integer >= 1.").
Proof.
  intros [H0 H1] Hn. unfold _low_pass_filter.
  rewrite (lt_false cutoff 0 H0), (lt_false (1 / 2) cutoff H1). cbn [orb].
  replace (n <? 1)%Z with true by (symmetry; now apply Z.ltb_lt).
  reflexivity.
Qed.

(** Past the two guards the filter is the Butterworth map of the radius
    grid. *)
Lemma low_pass_past_guards :
  0 <= cutoff <= 1 / 2 -> (1 <= n)%Z ->
  _low_pass_filter (cols, rows) cutoff n
  = Py.Return
      (Np.map2d
         (fun r => Np.div (Fin 1)
                     (Np.add (Fin 1)
                        (Np.power (Np.div r (Fin cutoff)) (2 * n))))
         (Np.zip2d Np.hypot
            (fst (Np.meshgrid
                    (map (fun a => Np.div a (Fin (IZR cols)))
                         (Np.arange (IZR (- cols) / 2) (IZR cols / 2)))
                    (map (fun a => Np.div a (Fin (IZR rows)))
                         (Np.arange (IZR (- rows) / 2) (IZR rows / 2)))))
            (snd (Np.meshgrid
                    (map (fun a => Np.div a (Fin (IZR cols)))
                         (Np.arange (IZR (- cols) / 2) (IZR cols / 2)))
                    (map (fun a => Np.div a (Fin (IZR rows)))
                         (Np.arange (IZR (- rows) / 2) (IZR rows / 2))))))).
Proof.
  intros [H0 H1] Hn. unfold _low_pass_filter.
  rewrite (lt_false cutoff 0 H0), (lt_false (1 / 2) cutoff H1). cbn [orb].
  replace (n <? 1)%Z with false by (symmetry; now apply Z.ltb_ge).
  reflexivity.
Qed.

(** The grid has the requested shape whatever the cells hold. *)
Lemma low_pass_shape :
  0 <= cutoff <= 1 / 2 -> (1 <= n)%Z ->
  exists f, _low_pass_filter (cols, rows) cutoff n = Py.Return f
            /\ Np.has_shape f (Z.to_nat rows) (Z.to_nat cols).
Proof.
  intros Hc Hn. rewrite (low_pass_past_guards Hc Hn). eexists.
  split; [reflexivity |].
  apply has_shape_map2d.
  pose proof (meshgrid_shape
                (map (fun a => Np.div a (Fin (IZR cols)))
                     (Np.arange (IZR (- cols) / 2) (IZR cols / 2)))
                (map (fun a => Np.div a (Fin (IZR rows)))
                     (Np.arange (IZR (- rows) / 2) (IZR rows / 2))))
    as [Hx Hy].
  rewrite !axis_coords_length in Hx, Hy.
  now apply has_shape_zip2d.
Qed.

(** An even power is non-negative, so the Butterworth denominator never
    vanishes. *)
Lemma butterworth_denominator_pos (q : R) :
  (0 <= n)%Z -> 0 < 1 + q ^ Z.to_nat (2 * n).
Proof.
  intros Hn. rewrite Z2Nat.inj_mul by lia.
  change (Z.to_nat 2) with 2%nat. rewrite pow_mult.
  assert (0 <= (q ^ 2) ^ Z.to_nat n).
  { apply pow_le. apply pow2_ge_0. }
  lra.
Qed.

(** The Butterworth value of a finite radius, for a non-zero cutoff. *)
Lemma butterworth_fin (r : R) :
  cutoff <> 0 -> (0 <= n)%Z ->
  Np.div (Fin 1)
         (Np.add (Fin 1) (Np.power (Np.div (Fin r) (Fin cutoff)) (2 * n)))
  = Fin (1 / (1 + (r / cutoff) ^ Z.to_nat (2 * n))).
Proof.
  intros Hc Hn. rewrite (div_fin _ _ Hc).
  rewrite power_fin_nonneg by lia. cbn [Np.add].
  apply div_fin. pose proof (butterworth_denominator_pos (r / cutoff) Hn). lra.
Qed.

(** Every cell, for positive dimensions and a cutoff in (0, 0.5]. *)
Lemma low_pass_cell (f : Np.ndarray2) (i j : Z) :
  (0 < cols)%Z -> (0 < rows)%Z -> 0 < cutoff <= 1 / 2 -> (1 <= n)%Z ->
  _low_pass_filter (cols, rows) cutoff n = Py.Return f ->
  (0 <= i < rows)%Z -> (0 <= j < cols)%Z ->
  Np.item f (Z.to_nat i) (Z.to_nat j)
  = Some (Fin (1 / (1 + (sqrt (((IZR (- cols) / 2 + IZR j) / IZR cols)
                               * ((IZR (- cols) / 2 + IZR j) / IZR cols)
                               + ((IZR (- rows) / 2 + IZR i) / IZR rows)
                                 * ((IZR (- rows) / 2 + IZR i) / IZR rows))
                         / cutoff) ^ Z.to_nat (2 * n)))).
Proof.
  intros Hcols Hrows Hc Hn Hf Hi Hj.
  rewrite low_pass_past_guards in Hf by (lra || lia).
  apply Return_inj in Hf. subst f.
  destruct (meshgrid_item _ _ _ _ _ _
              (axis_coords_nth cols cols j Hj ltac:(lia))
              (axis_coords_nth rows rows i Hi ltac:(lia))) as [Hx Hy].
  rewrite (item_map2d _ _ _ _ _ (item_zip2d Np.hypot _ _ _ _ _ _ Hx Hy)).
  rewrite hypot_fin. rewrite butterworth_fin by (lra || lia). reflexivity.
Qed.

End LowPass.

(* ================================================================== *)
(** ** Claims about the low-pass filter *)

(** C3, the claim as stated fails: a cutoff of exactly 0 lies outside
    (0, 0.5] and passes the guard [cutoff < 0 or cutoff > 0.5]; NumPy's
    division by the zero cutoff then fills the grid with [0] and [nan]
    and the grid is returned. *)
Lemma C3_counterexample_zero_cutoff_returns :
  ~ (0 < 0 <= 1 / 2)
  /\ _low_pass_filter (2, 2)%Z 0 1
     = Py.Return [[Fin 0; Fin 0]; [Fin 0; NaN]].
Proof.
  split; [lra |].
  rewrite low_pass_past_guards by (lra || lia).
  rewrite !axis_coords. change (Z.to_nat 2) with 2%nat.
  unfold Np.meshgrid, Np.zip2d, Np.map2d. cbn [seq map fst snd Np.zip_with].
  rewrite !div_fin by lra. rewrite !hypot_fin.
  cbn [INR]. change (IZR (- (2))) with (-2).
  replace ((- 2 / 2 + 0) / 2) with (- (1 / 2)) by field.
  replace ((- 2 / 2 + 1) / 2) with 0 by field.
  replace (0 * 0 + 0 * 0) with 0 by ring. rewrite sqrt_0.
  replace (- (1 / 2) * - (1 / 2) + 0 * 0) with ((1 / 2) * (1 / 2)) by ring.
  replace (0 * 0 + - (1 / 2) * - (1 / 2)) with ((1 / 2) * (1 / 2)) by ring.
  rewrite sqrt_square by lra.
  assert (Hd : 0 < sqrt (- (1 / 2) * - (1 / 2) + - (1 / 2) * - (1 / 2))).
  { apply sqrt_lt_R0. lra. }
  rewrite !div_fin_zero.
  rewrite (sgn_pos _ Hd), (sgn_pos (1 / 2)) by lra. rewrite sgn_zero.
  reflexivity.
Qed.

(** C3, as amended -- [_low_pass_filter] raises, before any computation,
    exactly when [cutoff < 0], [cutoff > 0.5] or [n < 1]: the cutoff 0.6
    fails, the cutoff 0 does not; and for a cutoff in [0, 0.5] with
    [n >= 1] no error is raised and a complete [rows x cols] grid is
    returned. *)
Theorem C3_low_pass_filter_guards (cols rows : Z) (cutoff : R) (n : Z) :
  (Py.raises (_low_pass_filter (cols, rows) cutoff n)
   <-> (cutoff < 0 \/ 1 / 2 < cutoff \/ (n < 1)%Z))
  /\ Py.raises (_low_pass_filter (cols, rows) (6 / 10) 1)
  /\ Py.returns (_low_pass_filter (cols, rows) 0 1)
  /\ (0 <= cutoff <= 1 / 2 -> (1 <= n)%Z ->
      exists f, _low_pass_filter (cols, rows) cutoff n = Py.Return f
                /\ Np.has_shape f (Z.to_nat rows) (Z.to_nat cols)).
Proof.
  split; [| split; [| split]].
  - split.
    + intros [e He].
      destruct (Rlt_dec cutoff 0) as [L | NL]; [now left |].
      destruct (Rlt_dec (1 / 2) cutoff) as [G | NG]; [right; now left |].
      destruct (Z_lt_le_dec n 1) as [Hn | Hn]; [right; now right |].
      destruct (low_pass_shape cols rows cutoff n) as [f [Hf _]];
        [lra | exact Hn |]. congruence.
    + intros H.
      destruct (Rlt_dec cutoff 0) as [L | NL].
      { eexists. apply low_pass_guard_cutoff. now left. }
      destruct (Rlt_dec (1 / 2) cutoff) as [G | NG].
      { eexists. apply low_pass_guard_cutoff. now right. }
      destruct H as [H | [H | H]]; try contradiction.
      eexists. apply low_pass_guard_order; [lra | exact H].
  - eexists. apply low_pass_guard_cutoff. right. lra.
  - destruct (low_pass_shape cols rows 0 1) as [f [Hf _]]; [lra | lia |].
    now exists f.
  - apply low_pass_shape.
Qed.

(** [lowPassFilter(size, cutoff=0.6, n=1)] fails; a cutoff of 0.25 with
    order 2 returns a 4 x 4 grid. *)
Lemma C3_low_pass_filter_guards_witness :
  Py.raises (_low_pass_filter (4, 4)%Z (6 / 10) 1)
  /\ 0 <= 1 / 4 <= 1 / 2 /\ (1 <= 2)%Z
  /\ exists f, _low_pass_filter (4, 4)%Z (1 / 4) 2 = Py.Return f
               /\ Np.has_shape f 4 4.
Proof.
  destruct (C3_low_pass_filter_guards 4 4 (1 / 4) 2)
    as [_ [Hfail [_ Hgrid]]].
  split; [exact Hfail |]. split; [lra |]. split; [lia |].
  apply Hgrid; lra || lia.
Defined.

(** C6 -- For positive dimensions, a cutoff in (0, 0.5] and an order
    [n >= 1], every cell of the returned grid is
    [1 / (1 + (r / cutoff)^(2 n))], with [r] the Euclidean radius of the
    cell on the axes [arange(-cols/2, cols/2) / cols] and
    [arange(-rows/2, rows/2) / rows]; so a cell whose radius is exactly
    the cutoff holds 0.5, whatever the order. *)
Theorem C6_low_pass_filter_formula (cols rows : Z) (cutoff : R) (n : Z) :
  (0 < cols)%Z -> (0 < rows)%Z -> 0 < cutoff <= 1 / 2 -> (1 <= n)%Z ->
  exists f,
    _low_pass_filter (cols, rows) cutoff n = Py.Return f
    /\ Np.has_shape f (Z.to_nat rows) (Z.to_nat cols)
    /\ forall i j : Z,
        (0 <= i < rows)%Z -> (0 <= j < cols)%Z ->
        let x := (IZR (- cols) / 2 + IZR j) / IZR cols in
        let y := (IZR (- rows) / 2 + IZR i) / IZR rows in
        let r := sqrt (x * x + y * y) in
        Np.item f (Z.to_nat i) (Z.to_nat j)
        = Some (Fin (1 / (1 + (r / cutoff) ^ Z.to_nat (2 * n))))
        /\ (r = cutoff ->
            Np.item f (Z.to_nat i) (Z.to_nat j) = Some (Fin (1 / 2))).
Proof.
  intros Hcols Hrows Hc Hn.
  destruct (low_pass_shape cols rows cutoff n) as [f [Hf Hshape]];
    [lra | exact Hn |].
  exists f. split; [exact Hf |]. split; [exact Hshape |].
  intros i j Hi Hj x y r.
  assert (Hcell := low_pass_cell cols rows cutoff n f i j
                                 Hcols Hrows Hc Hn Hf Hi Hj).
  fold x y in Hcell. fold r in Hcell. split; [exact Hcell |].
  intros Er. rewrite Hcell, Er. do 2 f_equal.
  replace (cutoff / cutoff) with 1 by (field; lra).
  rewrite pow1. lra.
Qed.

(** On the 2 x 2 grid with cutoff 0.5 the cell in row 1, column 0 lies at
    [(x, y) = (-0.5, 0)], at radius 0.5, and holds 0.5. *)
Lemma C6_low_pass_filter_formula_witness :
  (0 < 2)%Z /\ 0 < 1 / 2 <= 1 / 2 /\ (1 <= 1)%Z /\
  exists f,
    _low_pass_filter (2, 2)%Z (1 / 2) 1 = Py.Return f
    /\ Np.item f 1 0 = Some (Fin (1 / 2)).
Proof.
  split; [lia |]. split; [lra |]. split; [lia |].
  destruct (C6_low_pass_filter_formula 2 2 (1 / 2) 1)
    as [f [Hf [_ Hcell]]]; try lia; try lra.
  exists f. split; [exact Hf |].
  destruct (Hcell 1%Z 0%Z ltac:(lia) ltac:(lia)) as [_ Hhalf].
  apply Hhalf.
  change (IZR (- (2))) with (-2).
  replace ((- 2 / 2 + 0) / 2) with (- (1 / 2)) by field.
  replace ((- 2 / 2 + 1) / 2) with 0 by field.
  replace (- (1 / 2) * - (1 / 2) + 0 * 0) with ((1 / 2) * (1 / 2)) by ring.
  apply sqrt_square. lra.
Defined.

(* ================================================================== *)
(** ** Writing one cell of an array *)

Section ItemSet.

Lemma has_shape_nth_length (a : Np.ndarray2) (rows cols i : nat) :
  Np.has_shape a rows cols -> (i < rows)%nat ->
  List.length (nth i a []) = cols.
Proof.
  intros [Hl Hr] Hi. rewrite Forall_forall in Hr. apply Hr.
  apply nth_In. lia.
Qed.

Lemma adjust_index_cases (i : Z) (n : nat) :
  Np.adjust_index i n = Py.Raise Py.IndexError
  \/ exists k, (k < n)%nat /\ Np.adjust_index i n = Py.Return k.
Proof.
  unfold Np.adjust_index.
  set (i' := if (i <? 0)%Z then (i + Z.of_nat n)%Z else i).
  destruct ((0 <=? i') && (i' <? Z.of_nat n))%Z eqn:E; [right | now left].
  apply andb_true_iff in E. destruct E as [E1 E2].
  apply Z.leb_le in E1. apply Z.ltb_lt in E2.
  exists (Z.to_nat i'). split; [lia | reflexivity].
Qed.

(** In range, [itemset] writes the cell. *)
Lemma itemset_shape (a : Np.ndarray2) (rows cols : nat) (i j : Z) v :
  Np.has_shape a rows cols ->
  (0 <= i < Z.of_nat rows)%Z -> (0 <= j < Z.of_nat cols)%Z ->
  Np.itemset a i j v = Py.Return (Np.set_item a (Z.to_nat i) (Z.to_nat j) v).
Proof.
  intros Hs Hi Hj.
  rewrite <- (Z2Nat.id i) at 1 by lia. rewrite <- (Z2Nat.id j) at 1 by lia.
  apply itemset_in_range.
  - destruct Hs as [Hl _]. lia.
  - rewrite (has_shape_nth_length a rows cols) by (exact Hs || lia). lia.
Qed.

(** On an array with no row or no column, [itemset] raises [IndexError]
    whatever the indices. *)
Lemma itemset_empty (a : Np.ndarray2) (rows cols : nat) (i j : Z) v :
  Np.has_shape a rows cols -> rows = 0%nat \/ cols = 0%nat ->
  Np.itemset a i j v = Py.Raise Py.IndexError.
Proof.
  intros Hs Hz. unfold Np.itemset.
  destruct (adjust_index_cases i (List.length a)) as [E | [k [Hk E]]];
    rewrite E; cbn [Py.bind]; [reflexivity |].
  destruct Hs as [Hl Hr]. destruct Hz as [Hz | Hz]; [lia |].
  replace (List.length (nth k a [])) with 0%nat.
  - now rewrite adjust_index_empty.
  - symmetry. rewrite <- Hz.
    apply (has_shape_nth_length a rows cols); [now split | lia].
Qed.

Lemma item_set_other (a : Np.ndarray2) (i j i' j' : nat) v :
  i <> i' \/ j <> j' ->
  Np.item (Np.set_item a i j v) i' j' = Np.item a i' j'.
Proof.
  intros Hne. unfold Np.item, Np.set_item.
  destruct (Nat.eq_dec i i') as [E | N].
  - subst i'. destruct Hne as [Hne | Hne]; [congruence |].
    destruct (Nat.lt_ge_cases i (List.length a)) as [Hi | Hi].
    + rewrite set_nth_same by exact Hi.
      rewrite (nth_error_nth' a [] Hi). now apply set_nth_other.
    + assert (Hnone : nth_error a i = None) by now apply nth_error_None.
      assert (Hnone' : nth_error (Np.set_nth i (Np.set_nth j v (nth i a [])) a) i
                       = None).
      { apply nth_error_None. now rewrite set_nth_length. }
      now rewrite Hnone, Hnone'.
  - now rewrite set_nth_other by exact N.
Qed.

End ItemSet.

(* ================================================================== *)
(** ** The Log-Gabor kernel: the frequency grid and its radius *)

Section LogGaborGrid.

Variables cols rows : Z.

Lemma log_gabor_grid_shape :
  Np.has_shape (fst (log_gabor_grid (cols, rows)))
               (Z.to_nat rows) (Z.to_nat cols)
  /\ Np.has_shape (snd (log_gabor_grid (cols, rows)))
                  (Z.to_nat rows) (Z.to_nat cols).
Proof.
  unfold log_gabor_grid.
  pose proof (meshgrid_shape
                (map (fun a => Np.div a (Fin (IZR (Z.min cols rows))))
                     (Np.arange (IZR (- cols) / 2) (IZR cols / 2)))
                (map (fun a => Np.div a (Fin (IZR (Z.min cols rows))))
                     (Np.arange (IZR (- rows) / 2) (IZR rows / 2)))) as H.
  now rewrite !axis_coords_length in H.
Qed.

(** The coordinates of cell [(i, j)], for positive dimensions. *)
Lemma log_gabor_grid_item (i j : Z) :
  (0 < cols)%Z -> (0 < rows)%Z ->
  (0 <= i < rows)%Z -> (0 <= j < cols)%Z ->
  Np.item (fst (log_gabor_grid (cols, rows))) (Z.to_nat i) (Z.to_nat j)
  = Some (Fin ((IZR (- cols) / 2 + IZR j) / IZR (Z.min cols rows)))
  /\ Np.item (snd (log_gabor_grid (cols, rows))) (Z.to_nat i) (Z.to_nat j)
     = Some (Fin ((IZR (- rows) / 2 + IZR i) / IZR (Z.min cols rows))).
Proof.
  intros Hc Hr Hi Hj. unfold log_gabor_grid.
  apply meshgrid_item; apply axis_coords_nth; lia.
Qed.

Lemma log_gabor_radius_shape :
  Np.has_shape (log_gabor_radius (cols, rows)) (Z.to_nat rows) (Z.to_nat cols).
Proof.
  unfold log_gabor_radius.
  destruct log_gabor_grid_shape as [Hx Hy].
  destruct (log_gabor_grid (cols, rows)) as [x y].
  now apply has_shape_zip2d.
Qed.

(** The radius of cell [(i, j)] before the patch. *)
Lemma log_gabor_radius_item (i j : Z) :
  (0 < cols)%Z -> (0 < rows)%Z ->
  (0 <= i < rows)%Z -> (0 <= j < cols)%Z ->
  Np.item (log_gabor_radius (cols, rows)) (Z.to_nat i) (Z.to_nat j)
  = Some (Fin (sqrt (((IZR (- cols) / 2 + IZR j) / IZR (Z.min cols rows))
                     * ((IZR (- cols) / 2 + IZR j) / IZR (Z.min cols rows))
                     + ((IZR (- rows) / 2 + IZR i) / IZR (Z.min cols rows))
                       * ((IZR (- rows) / 2 + IZR i) / IZR (Z.min cols rows))))).
Proof.
  intros Hc Hr Hi Hj. unfold log_gabor_radius.
  destruct (log_gabor_grid_item i j Hc Hr Hi Hj) as [Hx Hy].
  destruct (log_gabor_grid (cols, rows)) as [x y]. cbn [fst snd] in Hx, Hy.
  rewrite (item_zip2d Np.hypot _ _ _ _ _ _ Hx Hy). now rewrite hypot_fin.
Qed.

(** With positive dimensions the centre patch is in range and writes the
    centre cell. *)
Lemma log_gabor_patched_radius_returns :
  (0 < cols)%Z -> (0 < rows)%Z ->
  log_gabor_patched_radius (cols, rows)
  = Py.Return (Np.set_item (log_gabor_radius (cols, rows))
                           (Z.to_nat (rows / 2)) (Z.to_nat (cols / 2))
                           (Fin 1)).
Proof.
  intros Hc Hr. unfold log_gabor_patched_radius.
  rewrite (int_half rows), (int_half cols) by lia.
  pose proof (half_in_range rows Hr). pose proof (half_in_range cols Hc).
  apply (itemset_shape _ (Z.to_nat rows) (Z.to_nat cols));
    [apply log_gabor_radius_shape | lia | lia].
Qed.

(** With a non-positive dimension the grid has no cell and the centre
    patch raises [IndexError]. *)
Lemma log_gabor_patched_radius_raises :
  (cols <= 0)%Z \/ (rows <= 0)%Z ->
  log_gabor_patched_radius (cols, rows) = Py.Raise Py.IndexError.
Proof.
  intros Hz. unfold log_gabor_patched_radius.
  apply (itemset_empty _ (Z.to_nat rows) (Z.to_nat cols));
    [apply log_gabor_radius_shape | lia].
Qed.

End LogGaborGrid.

(* ================================================================== *)
(** ** The Log-Gabor kernel: components and product *)

Section LogGaborKernel.

Variables (cols rows : Z) (f0 theta0 sigma_over_f sigma_theta0 : R).

Hypothesis cols_pos : (0 < cols)%Z.
Hypothesis rows_pos : (0 < rows)%Z.

Lemma centre_in_range :
  (Z.to_nat (rows / 2) < Z.to_nat rows)%nat
  /\ (Z.to_nat (cols / 2) < Z.to_nat cols)%nat.
Proof.
  pose proof (half_in_range rows rows_pos).
  pose proof (half_in_range cols cols_pos). lia.
Qed.

(** The radial step never raises on a grid of the requested shape. *)
Lemma log_gabor_radial_returns (radius : Np.ndarray2) :
  Np.has_shape radius (Z.to_nat rows) (Z.to_nat cols) ->
  log_gabor_radial (cols, rows) f0 sigma_over_f radius
  = Py.Return
      (Np.set_item
         (Np.map2d (Np.radial_cell f0 (lg_radial_denominator sigma_over_f))
                   radius)
         (Z.to_nat (rows / 2)) (Z.to_nat (cols / 2)) (Fin 0)).
Proof.
  intros Hs. unfold log_gabor_radial.
  rewrite (int_half rows), (int_half cols) by lia.
  pose proof (half_in_range rows rows_pos).
  pose proof (half_in_range cols cols_pos).
  unfold Np.map2d at 1 2. rewrite map_map.
  erewrite (map_ext _ (map (Np.radial_cell f0 (lg_radial_denominator sigma_over_f)))).
  - apply (itemset_shape _ (Z.to_nat rows) (Z.to_nat cols)); try lia.
    now apply has_shape_map2d.
  - intros row. now rewrite map_map.
Qed.


(** The centre of the radial component is the 0 written last. *)
Lemma log_gabor_radial_grid_centre :
  Np.item (log_gabor_radial_grid (cols, rows) f0 sigma_over_f)
          (Z.to_nat (rows / 2)) (Z.to_nat (cols / 2))
  = Some (Fin 0).
Proof.
  unfold log_gabor_radial_grid.
  destruct centre_in_range as [Hr Hc].
  assert (Hs : Np.has_shape
                 (Np.map2d (Np.radial_cell f0 (lg_radial_denominator sigma_over_f))
                           (Np.set_item (log_gabor_radius (cols, rows))
                                        (Z.to_nat (rows / 2))
                                        (Z.to_nat (cols / 2)) (Fin 1)))
                 (Z.to_nat rows) (Z.to_nat cols)).
  { apply has_shape_map2d, has_shape_set, log_gabor_radius_shape. }
  apply item_set_same.
  - destruct Hs as [Hl _]. lia.
  - rewrite (has_shape_nth_length _ _ _ _ Hs Hr). exact Hc.
Qed.


(** The angular component, cell by cell. *)
Lemma log_gabor_angular_item (i j : nat) (x y : Np.float64) :
  Np.item (fst (log_gabor_grid (cols, rows))) i j = Some x ->
  Np.item (snd (log_gabor_grid (cols, rows))) i j = Some y ->
  Np.item (log_gabor_angular (cols, rows) theta0 sigma_theta0) i j
  = Some (Np.angular_cell theta0 sigma_theta0 x y).
Proof.
  intros Hx Hy. unfold log_gabor_angular.
  destruct (log_gabor_grid (cols, rows)) as [gx gy]. cbn [fst snd] in Hx, Hy.
  pose proof (item_zip2d Np.arctan2 _ _ _ _ _ _
                         (item_map2d Np.neg _ _ _ _ Hy) Hx) as Htheta.
  pose proof (item_map2d Np.sin _ _ _ _ Htheta) as Hsin.
  pose proof (item_map2d Np.cos _ _ _ _ Htheta) as Hcos.
  pose proof (item_zip2d
                (fun s c => Np.add (Np.mul s (Np.cos (Fin theta0)))
                                   (Np.neg (Np.mul c (Np.sin (Fin theta0)))))
                _ _ _ _ _ _ Hsin Hcos) as Hds.
  pose proof (item_zip2d
                (fun c s => Np.add (Np.mul c (Np.cos (Fin theta0)))
                                   (Np.mul s (Np.sin (Fin theta0))))
                _ _ _ _ _ _ Hcos Hsin) as Hdc.
  pose proof (item_map2d Np.abs _ _ _ _
                         (item_zip2d Np.arctan2 _ _ _ _ _ _ Hds Hdc)) as Hdt.
  exact (item_map2d
           (fun d => Np.exp (Np.div (Np.neg (Np.power d 2))
                                    (Fin (2 * Py.pow sigma_theta0 2))))
           _ _ _ _ Hdt).
Qed.

(** At finite coordinates and for an angular bandwidth whose square does
    not underflow the angular value is finite. *)
Lemma angular_cell_finite (x y : R) :
  Py.eta < sigma_theta0 ^ 2 ->
  Np.is_finite (Np.angular_cell theta0 sigma_theta0 (Fin x) (Fin y)).
Proof.
  intros Hst. unfold Np.angular_cell. rewrite (pow_square _ Hst).
  cbn [Np.neg Np.arctan2 Np.sin Np.cos Np.mul Np.add Np.abs].
  rewrite power_fin_nonneg by lia. cbn [Np.neg].
  rewrite div_fin.
  - eexists. reflexivity.
  - pose proof eta_pos. lra.
Qed.

(** At the origin, for the orientation 0 and an angular bandwidth whose
    square underflows, the angular value is [0 / 0]. *)
Lemma angular_cell_origin_underflow :
  Py.pow sigma_theta0 2 = 0 ->
  Np.angular_cell 0 sigma_theta0 (Fin 0) (Fin 0) = NaN.
Proof.
  intros E. unfold Np.angular_cell. rewrite E.
  cbn [Np.neg Np.arctan2 Np.sin Np.cos Np.mul Np.add Np.abs].
  assert (A0 : Np.atan2 (- 0) 0 = 0).
  { unfold Np.atan2. rewrite Ropp_0, sgn_zero. reflexivity. }
  rewrite A0, sin_0, cos_0.
  replace (0 * 1 + - (1 * 0)) with 0 by ring.
  replace (1 * 1 + 0 * 0) with 1 by ring.
  assert (A1 : Np.atan2 0 1 = 0).
  { unfold Np.atan2. rewrite (sgn_pos 1) by lra.
    replace (0 / 1) with 0 by field. apply atan_0. }
  rewrite A1, Rabs_R0.
  rewrite power_fin_nonneg by lia. cbn [Np.neg].
  replace (- 0 ^ Z.to_nat 2) with 0 by (simpl; ring).
  replace (2 * 0) with 0 by ring.
  rewrite div_fin_zero, sgn_zero. reflexivity.
Qed.

(** With positive dimensions no step raises: the kernel is the cell-wise
    product of the three components. *)
Lemma get_log_gabor_kernel_returns :
  exists lp,
    _low_pass_filter (cols, rows) (45 / 100) 15 = Py.Return lp
    /\ Np.has_shape lp (Z.to_nat rows) (Z.to_nat cols)
    /\ get_log_gabor_kernel (cols, rows) f0 theta0 sigma_over_f sigma_theta0
       = Py.Return
           (Np.zip2d Np.mul
              (Np.zip2d Np.mul
                 (log_gabor_radial_grid (cols, rows) f0 sigma_over_f)
                 (log_gabor_angular (cols, rows) theta0 sigma_theta0))
              lp).
Proof.
  destruct (low_pass_shape cols rows (45 / 100) 15) as [lp [Hlp Hshape]];
    [lra | lia |].
  exists lp. split; [exact Hlp |]. split; [exact Hshape |].
  unfold get_log_gabor_kernel.
  rewrite log_gabor_patched_radius_returns by assumption. cbn [Py.bind].
  rewrite log_gabor_radial_returns
    by (apply has_shape_set, log_gabor_radius_shape).
  cbn [Py.bind]. rewrite Hlp. reflexivity.
Qed.


(** The centre cell of the kernel is [0 * angular * lowpass], with a
    finite low-pass factor. *)
Lemma get_log_gabor_kernel_centre_cell :
  exists kernel l,
    get_log_gabor_kernel (cols, rows) f0 theta0 sigma_over_f sigma_theta0
    = Py.Return kernel
    /\ Np.item kernel (Z.to_nat (rows / 2)) (Z.to_nat (cols / 2))
       = Some (Np.mul
                 (Np.mul
                    (Fin 0)
                    (Np.angular_cell
                       theta0 sigma_theta0
                       (Fin ((IZR (- cols) / 2 + IZR (cols / 2))
                             / IZR (Z.min cols rows)))
                       (Fin ((IZR (- rows) / 2 + IZR (rows / 2))
                             / IZR (Z.min cols rows)))))
                 (Fin l)).
Proof.
  destruct get_log_gabor_kernel_returns as [lp [Hlp [_ Hk]]].
  eexists. eexists. split; [exact Hk |].
  pose proof (half_in_range rows rows_pos) as Hi.
  pose proof (half_in_range cols cols_pos) as Hj.
  destruct (log_gabor_grid_item cols rows (rows / 2) (cols / 2)
                                cols_pos rows_pos Hi Hj) as [Hx Hy].
  pose proof (log_gabor_angular_item _ _ _ _ Hx Hy) as Hang.
  pose proof (low_pass_cell cols rows (45 / 100) 15 lp (rows / 2) (cols / 2)
                            cols_pos rows_pos ltac:(lra) ltac:(lia)
                            Hlp Hi Hj) as Hlpc.
  exact (item_zip2d Np.mul _ _ _ _ _ _
           (item_zip2d Np.mul _ _ _ _ _ _
                       log_gabor_radial_grid_centre Hang)
           Hlpc).
Qed.

(** With an angular bandwidth whose square does not underflow both
    factors are finite and the centre cell is 0. *)
Lemma get_log_gabor_kernel_centre :
  Py.eta < sigma_theta0 ^ 2 ->
  exists kernel,
    get_log_gabor_kernel (cols, rows) f0 theta0 sigma_over_f sigma_theta0
    = Py.Return kernel
    /\ Np.item kernel (Z.to_nat (rows / 2)) (Z.to_nat (cols / 2))
       = Some (Fin 0).
Proof.
  intros Hst.
  destruct get_log_gabor_kernel_centre_cell as [kernel [l [Hk Hcell]]].
  exists kernel. split; [exact Hk |]. rewrite Hcell.
  destruct (angular_cell_finite
              ((IZR (- cols) / 2 + IZR (cols / 2)) / IZR (Z.min cols rows))
              ((IZR (- rows) / 2 + IZR (rows / 2)) / IZR (Z.min cols rows))
              Hst) as [a Ha].
  rewrite Ha. cbn [Np.mul]. do 2 f_equal. ring.
Qed.

End LogGaborKernel.

(* ================================================================== *)
(** ** The radial component with a zero denominator *)

Section ZeroDenominator.





End ZeroDenominator.

(* ================================================================== *)
(** ** The radius grid by parity of the size *)

Section RadiusParity.

Variables cols rows : Z.

Hypothesis cols_pos : (0 < cols)%Z.
Hypothesis rows_pos : (0 < rows)%Z.

(** The middle coordinate of an even axis is 0. *)
Lemma even_axis_centre (c : Z) :
  Z.even c = true -> IZR (- c) / 2 + IZR (c / 2) = 0.
Proof.
  intros He. apply Z.even_spec in He. destruct He as [k Hk]. subst c.
  replace (2 * k / 2)%Z with k
    by (symmetry; rewrite Z.mul_comm; apply Z.div_mul; lia).
  rewrite opp_IZR, mult_IZR. lra.
Qed.

(** No coordinate of an odd axis is 0. *)
Lemma odd_axis_nonzero (c k : Z) :
  Z.odd c = true -> IZR (- c) / 2 + IZR k <> 0.
Proof.
  intros Ho E. apply Z.odd_spec in Ho. destruct Ho as [m Hm]. subst c.
  assert (H : IZR (2 * k) = IZR (2 * m + 1)).
  { rewrite opp_IZR in E. rewrite mult_IZR, plus_IZR, mult_IZR in *. lra. }
  apply eq_IZR in H. lia.
Qed.

(** For even dimensions the centre cell has radius 0. *)
Lemma log_gabor_radius_centre_even :
  Z.even cols = true -> Z.even rows = true ->
  Np.item (log_gabor_radius (cols, rows))
          (Z.to_nat (rows / 2)) (Z.to_nat (cols / 2))
  = Some (Fin 0).
Proof.
  intros Hc Hr.
  rewrite log_gabor_radius_item
    by (assumption || apply half_in_range; assumption).
  rewrite (even_axis_centre cols Hc), (even_axis_centre rows Hr).
  unfold Rdiv. rewrite !Rmult_0_l, Rplus_0_l. now rewrite sqrt_0.
Qed.

(** For an odd number of columns every cell has a positive radius. *)
Lemma log_gabor_radius_odd_positive (i j : Z) :
  Z.odd cols = true ->
  (0 <= i < rows)%Z -> (0 <= j < cols)%Z ->
  exists r, Np.item (log_gabor_radius (cols, rows)) (Z.to_nat i) (Z.to_nat j)
            = Some (Fin r) /\ 0 < r.
Proof.
  intros Ho Hi Hj. eexists. split.
  - apply log_gabor_radius_item; assumption.
  - apply sqrt_lt_R0.
    set (x := (IZR (- cols) / 2 + IZR j) / IZR (Z.min cols rows)).
    set (y := (IZR (- rows) / 2 + IZR i) / IZR (Z.min cols rows)).
    assert (Hx : x <> 0).
    { unfold x, Rdiv. apply Rmult_integral_contrapositive_currified.
      - now apply odd_axis_nonzero.
      - apply Rinv_neq_0_compat, not_0_IZR. lia. }
    assert (0 < x * x) by nra. nra.
Qed.

End RadiusParity.

(* ================================================================== *)
(** ** The Gabor filter bank *)

Section FilterBank.



Variables (width height n_scales n_orientations : Z).
Variables (min_sigma scale_factor gamma psi : R).

Hypothesis width_nonneg : (0 <= width)%Z.
Hypothesis height_nonneg : (0 <= height)%Z.
Hypothesis gamma_moderate : Py.moderate gamma.
Hypothesis scales_moderate :
  forall scale : Z,
    (0 <= scale < n_scales)%Z ->
    Py.moderate (min_sigma + IZR scale)
    /\ Py.moderate ((min_sigma + IZR scale) * scale_factor).





End FilterBank.

(* ================================================================== *)
(** ** Claims about the Gabor filter bank *)




(* ================================================================== *)
(** ** Claims about the Log-Gabor kernel *)




(** C4, on the size 3 x 3: the centre cell [(1, 1)] lies at
    [(x, y) = (-1/6, -1/6)], its radius is [sqrt(1/18)], not 0; no cell
    of the grid has radius 0; and the patch overwrites the radius of
    [(1, 1)] with 1. *)
Theorem C4_odd_size_centre_radius_not_zero :
  Np.item (log_gabor_radius (3, 3)%Z) 1 1 = Some (Fin (sqrt (1 / 18)))
  /\ 0 < sqrt (1 / 18)
  /\ (forall i j : Z,
         (0 <= i < 3)%Z -> (0 <= j < 3)%Z ->
         exists r, Np.item (log_gabor_radius (3, 3)%Z)
                           (Z.to_nat i) (Z.to_nat j) = Some (Fin r)
                   /\ 0 < r)
  /\ exists patched,
      log_gabor_patched_radius (3, 3)%Z = Py.Return patched
      /\ Np.item patched 1 1 = Some (Fin 1).
Proof.
  split; [| split; [| split]].
  - pose proof (log_gabor_radius_item 3 3 1 1 ltac:(lia) ltac:(lia)
                                      ltac:(lia) ltac:(lia)) as E.
    change (Z.to_nat 1) with 1%nat in E. rewrite E. do 2 f_equal.
    change (Z.min 3 3) with 3%Z. change (IZR (- (3))) with (-3).
    f_equal. field.
  - apply sqrt_lt_R0. lra.
  - intros i j Hi Hj.
    apply log_gabor_radius_odd_positive; try lia. reflexivity.
  - eexists. split.
    + apply log_gabor_patched_radius_returns; lia.
    + change (Z.to_nat (3 / 2)) with 1%nat.
      pose proof (log_gabor_radius_shape 3 3) as Hs.
      change (Z.to_nat 3) with 3%nat in Hs.
      apply item_set_same.
      * destruct Hs as [Hl _]. lia.
      * rewrite (has_shape_nth_length _ 3 3 1 Hs); lia.
Qed.

(** C5, the claim as stated fails: on the 4 x 4 grid, with [f0 = 1/3],
    [theta0 = 0], [sigma_over_f = 0.75] and the positive
    [sigma_theta = 2 ** -600], the angular denominator
    [2 * sigma_theta ** 2] underflows to [0.0]; the angular value at the
    centre cell is [0 / 0] and the centre cell of the returned grid is
    [0 * nan = nan], not 0. *)
Lemma C5_counterexample_centre_nan :
  (0 < 4)%Z /\ 0 < 1 / 3 /\ 0 < 3 / 4 /\ 0 < tiny
  /\ exists kernel,
      get_log_gabor_kernel (4, 4)%Z (1 / 3) 0 (3 / 4) tiny = Py.Return kernel
      /\ Np.item kernel 2 2 = Some NaN.
Proof.
  split; [lia |]. split; [lra |]. split; [lra |]. split; [exact tiny_pos |].
  destruct (get_log_gabor_kernel_centre_cell 4 4 (1 / 3) 0 (3 / 4) tiny)
    as [kernel [l [Hk Hcell]]]; try lia.
  exists kernel. split; [exact Hk |].
  change (Z.to_nat (4 / 2)) with 2%nat in Hcell. rewrite Hcell.
  rewrite (even_axis_centre 4 eq_refl).
  replace (0 / IZR (Z.min 4 4)) with 0 by (unfold Rdiv; ring).
  rewrite (angular_cell_origin_underflow tiny pow_tiny). reflexivity.
Qed.

(** C5, as amended -- For positive dimensions, positive [f0] and
    [sigma_over_f], and a positive [sigma_theta] of moderate magnitude
    (between [2 ** -250] and [2 ** 250], so that its square neither
    underflows nor overflows), the returned grid holds exactly 0 at the
    centre cell (row [floor(rows / 2)], column [floor(cols / 2)]). *)
Theorem C5_log_gabor_kernel_centre_zero
        (cols rows : Z) (f0 theta0 sigma_over_f sigma_theta0 : R) :
  (0 < cols)%Z -> (0 < rows)%Z ->
  0 < f0 -> 0 < sigma_over_f -> 0 < sigma_theta0 ->
  Py.moderate sigma_theta0 ->
  exists kernel,
    get_log_gabor_kernel (cols, rows) f0 theta0 sigma_over_f sigma_theta0
    = Py.Return kernel
    /\ Np.item kernel (Z.to_nat (rows / 2)) (Z.to_nat (cols / 2))
       = Some (Fin 0).
Proof.
  intros Hc Hr _ _ _ Hst.
  now apply get_log_gabor_kernel_centre, moderate_square.
Qed.

(** The 4 x 5 kernel of [f0 = 1/3], [theta0 = 0], [sigma_over_f = 0.75],
    [sigma_theta = 1] holds 0 at its centre cell [(2, 2)]. *)
Lemma C5_log_gabor_kernel_centre_zero_witness :
  (0 < 4)%Z /\ (0 < 5)%Z /\ 0 < 1 / 3 /\ 0 < 3 / 4 /\ 0 < 1
  /\ Py.moderate 1 /\
  exists kernel,
    get_log_gabor_kernel (4, 5)%Z (1 / 3) 0 (3 / 4) 1 = Py.Return kernel
    /\ Np.item kernel 2 2 = Some (Fin 0).
Proof.
  assert (M1 : Py.moderate 1)
    by (apply moderate_bounds; rewrite Rabs_right; lra).
  split; [lia |]. split; [lia |]. split; [lra |]. split; [lra |].
  split; [lra |]. split; [exact M1 |].
  apply (C5_log_gabor_kernel_centre_zero 4 5 (1 / 3) 0 (3 / 4) 1);
    try lia; try lra; exact M1.
Defined.



(* ================================================================== *)
(** ** The filter banks: one scale at a time *)

Section BankScales.

Variables (width height n_orientations : Z).


(** One scale of the Gabor bank whose first kernel call raises. *)
Lemma gabor_bank_scale_raises (min_sigma scale_factor gamma psi : R)
      (scale : Z) (filters : list Np.ndarray2) (e : Py.exception) :
  (1 <= n_orientations)%Z ->
  get_gabor_kernel (width, height) (min_sigma + IZR scale)
                   (2 * PI * (0 / IZR n_orientations))
                   (Py.mul (min_sigma + IZR scale) scale_factor) gamma psi
  = Py.Raise e ->
  Py.for_ (Py.range n_orientations) filters
    (fun orientation filters =>
       let sigma := min_sigma + IZR scale in
       let lambd := Py.mul sigma scale_factor in
       do turn <- Py.truediv (IZR orientation) (IZR n_orientations);
       let theta := 2 * PI * turn in
       do f <- get_gabor_kernel (width, height) sigma theta lambd gamma psi;
       Py.Return (filters ++ [f]))
  = Py.Raise e.
Proof.
  intros Hno Hk. apply for_range_first_raises; [exact Hno |].
  cbv zeta. rewrite truediv_nonzero by (apply not_0_IZR; lia).
  cbn [Py.bind]. now rewrite Hk.
Qed.




End BankScales.

(* ================================================================== *)
(** ** Further properties of the filter banks *)





(** X3 -- With at least one scale and one orientation and a non-zero
    [min_wavelength], [get_log_gabor_filterbank] on a size with a
    non-positive dimension raises the [IndexError] of its first kernel
    call. *)
Theorem X3_log_gabor_filterbank_invalid_size
        (cols rows n_scales n_orientations : Z)
        (min_wavelength scale_factor sigma_over_f sigma_theta : R) :
  (1 <= n_scales)%Z -> (1 <= n_orientations)%Z ->
  min_wavelength <> 0 ->
  (cols <= 0)%Z \/ (rows <= 0)%Z ->
  get_log_gabor_filterbank (cols, rows) n_scales n_orientations
                           min_wavelength scale_factor
                           sigma_over_f sigma_theta
  = Py.Raise Py.IndexError.
Proof.
  intros Hns Hno Hmw Hsize. unfold get_log_gabor_filterbank.
  apply for_range_first_raises; [exact Hns |].
  apply for_range_first_raises; [exact Hno |].
  cbv zeta. change (Z.to_nat 0) with 0%nat. rewrite pow_0_r, mul_1_r.
  rewrite truediv_nonzero by exact Hmw. cbn [Py.bind].
  rewrite truediv_nonzero by (apply not_0_IZR; lia). cbn [Py.bind].
  unfold get_log_gabor_kernel.
  now rewrite (log_gabor_patched_radius_raises cols rows Hsize).
Qed.

(** A bank on a grid with no row. *)
Lemma X3_log_gabor_filterbank_invalid_size_witness :
  (1 <= 2)%Z /\ (1 <= 4)%Z /\ (3 : R) <> 0 /\ (0 <= 0)%Z /\
  get_log_gabor_filterbank (8, 0)%Z 2 4 3 (16 / 10) (3 / 4) 1
  = Py.Raise Py.IndexError.
Proof.
  split; [lia |]. split; [lia |]. split; [lra |]. split; [lia |].
  apply (X3_log_gabor_filterbank_invalid_size 8 0 2 4 3 (16 / 10) (3 / 4) 1);
    try lia; try lra.
Defined.

(** X4 -- With [n_scales <= 0] or [n_orientations <= 0] both filter
    banks return the empty list: no kernel call is made and no other
    parameter is looked at, so that a size or a parameter every kernel
    call would reject goes unnoticed. *)
Theorem X4_filterbanks_empty
        (ksize : Z * Z) (n_scales n_orientations : Z) (a b c d : R) :
  (n_scales <= 0)%Z \/ (n_orientations <= 0)%Z ->
  get_gabor_filterbank ksize n_scales n_orientations a b c d = Py.Return []
  /\ get_log_gabor_filterbank ksize n_scales n_orientations a b c d
     = Py.Return [].
Proof.
  intros [Hns | Hno].
  - unfold get_gabor_filterbank, get_log_gabor_filterbank.
    now rewrite !for_range_nonpos by exact Hns.
  - unfold get_gabor_filterbank, get_log_gabor_filterbank. split.
    + unfold Py.range at 1.
      destruct (for_seq_invariant
                  (fun _ fs => fs = [])
                  (fun scale filters =>
                     Py.for_ (Py.range n_orientations) filters
                       (fun orientation filters =>
                          let sigma := a + IZR scale in
                          let lambd := Py.mul sigma b in
                          do turn <- Py.truediv (IZR orientation)
                                                (IZR n_orientations);
                          let theta := 2 * PI * turn in
                          do f <- get_gabor_kernel ksize sigma theta lambd c d;
                          Py.Return (filters ++ [f])))
                  (Z.to_nat n_scales) 0 []) as [fs [Hfor Hfs]].
      * reflexivity.
      * intros k t _ Ht. subst t. exists [].
        split; [| reflexivity]. now apply for_range_nonpos.
      * subst fs. exact Hfor.
    + unfold Py.range at 1.
      destruct (for_seq_invariant
                  (fun _ fs => fs = [])
                  (fun scale filters =>
                     Py.for_ (Py.range n_orientations) filters
                       (fun orientation filters =>
                          let wavelength :=
                            Py.mul a (Py.pow b (Z.to_nat scale)) in
                          do f0 <- Py.truediv 1 wavelength;
                          do turn <- Py.truediv (IZR orientation)
                                                (IZR n_orientations);
                          let theta0 := 2 * PI * turn in
                          do f <- get_log_gabor_kernel ksize f0 theta0 c d;
                          Py.Return (filters ++ [f])))
                  (Z.to_nat n_scales) 0 []) as [fs [Hfor Hfs]].
      * reflexivity.
      * intros k t _ Ht. subst t. exists [].
        split; [| reflexivity]. now apply for_range_nonpos.
      * subst fs. exact Hfor.
Qed.

(** Three scales and no orientation, on a negative size with every
    parameter zero. *)
Lemma X4_filterbanks_empty_witness :
  ((3 <= 0)%Z \/ (0 <= 0)%Z)
  /\ get_gabor_filterbank (-1, -1)%Z 3 0 0 0 0 0 = Py.Return []
  /\ get_log_gabor_filterbank (-1, -1)%Z 3 0 0 0 0 0 = Py.Return [].
Proof.
  split; [right; lia |].
  apply (X4_filterbanks_empty (-1, -1)%Z 3 0 0 0 0 0). right. lia.
Defined.



(** X6 -- With at least one scale and one orientation,
    [get_gabor_filterbank] on a size with a negative dimension raises the
    [ValueError] of the first kernel's allocation, whatever the other
    parameters. *)
Theorem X6_gabor_filterbank_negative_size
        (width height n_scales n_orientations : Z)
        (min_sigma scale_factor gamma psi : R) :
  (1 <= n_scales)%Z -> (1 <= n_orientations)%Z ->
  (width < 0)%Z \/ (height < 0)%Z ->
  get_gabor_filterbank (width, height) n_scales n_orientations
                       min_sigma scale_factor gamma psi
  = Py.Raise Py.ValueError.
Proof.
  intros Hns Hno Hsize. unfold get_gabor_filterbank.
  apply for_range_first_raises; [exact Hns |].
  apply gabor_bank_scale_raises; [exact Hno |].
  now apply get_gabor_kernel_negative_size.
Qed.

(** A negative width, with [gamma = 0] on top. *)
Lemma X6_gabor_filterbank_negative_size_witness :
  (1 <= 2)%Z /\ (1 <= 4)%Z /\ (-3 < 0)%Z /\
  get_gabor_filterbank (-3, 3)%Z 2 4 1 3 0 (PI / 2)
  = Py.Raise Py.ValueError.
Proof.
  split; [lia |]. split; [lia |]. split; [lia |].
  apply (X6_gabor_filterbank_negative_size (-3) 3 2 4 1 3 0 (PI / 2));
    try lia.
Defined.

(* ================================================================== *)
(** ** The Gabor kernel as a function of its parameters *)

Section GaborKernelCells.


Lemma has_shape_empty_item (a : Np.ndarray2) (rows cols i j : nat) :
  Np.has_shape a rows cols -> rows = 0%nat \/ cols = 0%nat ->
  Np.item a i j = None.
Proof.
  intros Hs Hz. unfold Np.item.
  destruct (nth_error a i) as [row |] eqn:E; [| reflexivity].
  destruct Hs as [Hl Hr].
  assert (Hi : (i < List.length a)%nat).
  { apply nth_error_Some. congruence. }
  destruct Hz as [Hz | Hz]; [lia |].
  rewrite Forall_forall in Hr.
  assert (Hrow : List.length row = cols).
  { apply Hr. eapply nth_error_In. exact E. }
  apply nth_error_None. lia.
Qed.

Variables (width height : Z) (sigma theta lambd gamma psi : R).

(** Cell [(i, j)] of the kernel of valid parameters. *)
Lemma gabor_kernel_item (i j : Z) :
  (0 <= width)%Z -> (0 <= height)%Z ->
  Py.eta < sigma ^ 2 -> gamma <> 0 -> Py.eta < (sigma / gamma) ^ 2 ->
  lambd <> 0 ->
  (0 <= i < height)%Z -> (0 <= j < width)%Z ->
  exists kernel,
    get_gabor_kernel (width, height) sigma theta lambd gamma psi
    = Py.Return kernel
    /\ Np.item kernel (Z.to_nat i) (Z.to_nat j)
       = Some (Fin (let y := IZR (i - height / 2) in
                    let x := IZR (j - width / 2) in
                    let xr := x * cos theta + y * sin theta in
                    let yr := IZR (- (j - width / 2)) * sin theta
                              + y * cos theta in
                    exp (- (1 / 2) / sigma ^ 2 * xr * xr
                         + - (1 / 2) / (sigma / gamma) ^ 2 * yr * yr)
                    * cos (PI * 2 / lambd * xr + psi))).
Proof.
  intros Hw Hh Hs Hg Hq Hl Hi Hj. eexists. split.
  - now apply get_gabor_kernel_returns.
  - rewrite full_grid_item by lia. rewrite !Z2Nat.id by lia.
    now rewrite gabor_cell_fin.
Qed.

(** The exponent of the envelope is never positive. *)
Lemma gabor_envelope_exponent_nonpos (xr yr : R) :
  sigma <> 0 -> gamma <> 0 ->
  - (1 / 2) / sigma ^ 2 * xr * xr
  + - (1 / 2) / (sigma / gamma) ^ 2 * yr * yr <= 0.
Proof.
  intros Hs Hg.
  assert (Hs2 : 0 < sigma ^ 2).
  { replace (sigma ^ 2) with (sigma * sigma) by ring. nra. }
  assert (Hq : sigma / gamma <> 0).
  { unfold Rdiv. apply Rmult_integral_contrapositive_currified;
      [exact Hs | now apply Rinv_neq_0_compat]. }
  assert (Hq2 : 0 < (sigma / gamma) ^ 2).
  { replace ((sigma / gamma) ^ 2) with ((sigma / gamma) * (sigma / gamma))
      by ring. nra. }
  assert (H1 : 0 <= / sigma ^ 2) by (left; now apply Rinv_0_lt_compat).
  assert (H2 : 0 <= / (sigma / gamma) ^ 2)
    by (left; now apply Rinv_0_lt_compat).
  assert (Hx : 0 <= xr * xr) by nra.
  assert (Hy : 0 <= yr * yr) by nra.
  unfold Rdiv.
  assert (0 <= / sigma ^ 2 * (xr * xr)) by now apply Rmult_le_pos.
  assert (0 <= / (sigma / gamma) ^ 2 * (yr * yr)) by now apply Rmult_le_pos.
  lra.
Qed.

End GaborKernelCells.

(* ================================================================== *)
(** ** Further properties of the Gabor kernel *)

(** X7 -- [get_gabor_kernel] on a size with a negative dimension raises
    the [ValueError] of [np.zeros], before any parameter is used; on a
    size with a zero dimension and [sigma], [gamma] and [lambd] of
    moderate magnitude (between [2 ** -250] and [2 ** 250] in absolute
    value) it raises nothing and returns a grid of the requested shape
    with no cell. *)
Theorem X7_gabor_kernel_size_edges
        (width height : Z) (sigma theta lambd gamma psi : R) :
  ((width < 0)%Z \/ (height < 0)%Z ->
   get_gabor_kernel (width, height) sigma theta lambd gamma psi
   = Py.Raise Py.ValueError)
  /\ (Py.moderate sigma -> Py.moderate gamma -> Py.moderate lambd ->
      (0 <= width)%Z -> (0 <= height)%Z ->
      width = 0%Z \/ height = 0%Z ->
      exists kernel,
        get_gabor_kernel (width, height) sigma theta lambd gamma psi
        = Py.Return kernel
        /\ Np.has_shape kernel (Z.to_nat height) (Z.to_nat width)
        /\ forall i j : nat, Np.item kernel i j = None).
Proof.
  split.
  - apply get_gabor_kernel_negative_size.
  - intros Ms Mg Ml Hw Hh Hz.
    destruct (moderate_gabor_parameters _ _ _ Ms Mg Ml) as [Hs [Hg [Hq Hl]]].
    eexists. split; [| split].
    + now apply get_gabor_kernel_returns.
    + apply full_grid_shape.
    + intros i j.
      apply (has_shape_empty_item _ (Z.to_nat height) (Z.to_nat width));
        [apply full_grid_shape | lia].
Qed.

(** A negative height with [sigma = 0]; and a 0 x 4 size. *)
Lemma X7_gabor_kernel_size_edges_witness :
  get_gabor_kernel (3, -1)%Z 0 0 3 1 0 = Py.Raise Py.ValueError
  /\ Py.moderate 1 /\ Py.moderate 3
  /\ exists kernel,
      get_gabor_kernel (0, 4)%Z 1 0 3 1 0 = Py.Return kernel
      /\ Np.has_shape kernel 4 0.
Proof.
  assert (M1 : Py.moderate 1)
    by (apply moderate_bounds; rewrite Rabs_right; lra).
  assert (M3 : Py.moderate 3)
    by (apply moderate_bounds; rewrite Rabs_right; lra).
  split; [| split; [exact M1 | split; [exact M3 |]]].
  - apply (X7_gabor_kernel_size_edges 3 (-1) 0 0 3 1 0). right. lia.
  - destruct (X7_gabor_kernel_size_edges 0 4 1 0 3 1 0) as [_ H].
    destruct H as [kernel [Hk [Hshape _]]]; try assumption; try lia.
    exists kernel. split; [exact Hk | exact Hshape].
Defined.

(** X8 -- For positive dimensions and [sigma], [gamma] and [lambd] of
    moderate magnitude (between [2 ** -250] and [2 ** 250] in absolute
    value), the cell at row [floor(height / 2)], column
    [floor(width / 2)] of the Gabor kernel is [cos(psi)], whatever the
    other parameters. *)
Theorem X8_gabor_kernel_centre
        (width height : Z) (sigma theta lambd gamma psi : R) :
  (0 < width)%Z -> (0 < height)%Z ->
  Py.moderate sigma -> Py.moderate gamma -> Py.moderate lambd ->
  exists kernel,
    get_gabor_kernel (width, height) sigma theta lambd gamma psi
    = Py.Return kernel
    /\ Np.item kernel (Z.to_nat (height / 2)) (Z.to_nat (width / 2))
       = Some (Fin (cos psi)).
Proof.
  intros Hw Hh Ms Mg Ml.
  destruct (moderate_gabor_parameters _ _ _ Ms Mg Ml) as [Hs [Hg [Hq Hl]]].
  destruct (gabor_kernel_item width height sigma theta lambd gamma psi
                              (height / 2) (width / 2))
    as [kernel [Hk Hcell]]; try assumption; try lia;
    try (apply half_in_range; assumption).
  exists kernel. split; [exact Hk |]. rewrite Hcell. cbv zeta.
  rewrite !Z.sub_diag. change (- 0)%Z with 0%Z.
  do 2 f_equal.
  replace (- (1 / 2) / sigma ^ 2 * (0 * cos theta + 0 * sin theta)
           * (0 * cos theta + 0 * sin theta)
           + - (1 / 2) / (sigma / gamma) ^ 2
             * (0 * sin theta + 0 * cos theta)
             * (0 * sin theta + 0 * cos theta)) with 0
    by (unfold Rdiv; ring).
  replace (PI * 2 / lambd * (0 * cos theta + 0 * sin theta) + psi) with psi
    by (unfold Rdiv; ring).
  rewrite exp_0. ring.
Qed.

(** The centre of a 4 x 6 kernel with the bank's default [psi]. *)
Lemma X8_gabor_kernel_centre_witness :
  (0 < 4)%Z /\ (0 < 6)%Z /\ Py.moderate 2 /\ Py.moderate 1
  /\ Py.moderate 6 /\
  exists kernel,
    get_gabor_kernel (4, 6)%Z 2 (PI / 4) 6 1 (PI / 2) = Py.Return kernel
    /\ Np.item kernel 3 2 = Some (Fin (cos (PI / 2))).
Proof.
  assert (M1 : Py.moderate 1)
    by (apply moderate_bounds; rewrite Rabs_right; lra).
  assert (M2 : Py.moderate 2)
    by (apply moderate_bounds; rewrite Rabs_right; lra).
  assert (M6 : Py.moderate 6)
    by (apply moderate_bounds; rewrite Rabs_right; lra).
  split; [lia |]. split; [lia |]. split; [exact M2 |]. split; [exact M1 |].
  split; [exact M6 |].
  apply (X8_gabor_kernel_centre 4 6 2 (PI / 4) 6 1 (PI / 2));
    lia || assumption.
Defined.

(** X9 -- For [sigma], [gamma] and [lambd] of moderate magnitude
    (between [2 ** -250] and [2 ** 250] in absolute value) every cell of
    the Gabor kernel is a finite number between -1 and 1. *)
Theorem X9_gabor_kernel_bounded
        (width height : Z) (sigma theta lambd gamma psi : R) :
  (0 <= width)%Z -> (0 <= height)%Z ->
  Py.moderate sigma -> Py.moderate gamma -> Py.moderate lambd ->
  exists kernel,
    get_gabor_kernel (width, height) sigma theta lambd gamma psi
    = Py.Return kernel
    /\ forall i j : Z,
        (0 <= i < height)%Z -> (0 <= j < width)%Z ->
        exists v, Np.item kernel (Z.to_nat i) (Z.to_nat j) = Some (Fin v)
                  /\ -1 <= v <= 1.
Proof.
  intros Hw Hh Ms Mg Ml.
  destruct (moderate_gabor_parameters _ _ _ Ms Mg Ml) as [Hs2 [Hg [Hq Hl]]].
  pose proof (moderate_nonzero _ Ms) as Hs.
  eexists. split.
  - now apply get_gabor_kernel_returns.
  - intros i j Hi Hj. eexists. split.
    + rewrite full_grid_item by lia. rewrite !Z2Nat.id by lia.
      now rewrite gabor_cell_fin.
    + cbv zeta.
      set (xr := IZR (j - width / 2) * cos theta
                 + IZR (i - height / 2) * sin theta).
      set (yr := IZR (- (j - width / 2)) * sin theta
                 + IZR (i - height / 2) * cos theta).
      pose proof (gabor_envelope_exponent_nonpos sigma gamma xr yr Hs Hg)
        as Hexp.
      set (E := - (1 / 2) / sigma ^ 2 * xr * xr
                + - (1 / 2) / (sigma / gamma) ^ 2 * yr * yr) in *.
      assert (Hpos : 0 < exp E) by apply exp_pos.
      assert (Hle : exp E <= 1).
      { destruct Hexp as [Hlt | Heq].
        - left. rewrite <- exp_0. now apply exp_increasing.
        - rewrite Heq, exp_0. lra. }
      pose proof (COS_bound (PI * 2 / lambd * xr + psi)) as [Hc1 Hc2].
      split; nra.
Qed.

(** On a 5 x 5 kernel. *)
Lemma X9_gabor_kernel_bounded_witness :
  (0 <= 5)%Z /\ Py.moderate 1 /\ Py.moderate 3 /\
  exists kernel v,
    get_gabor_kernel (5, 5)%Z 1 0 3 1 0 = Py.Return kernel
    /\ Np.item kernel 0 4 = Some (Fin v) /\ -1 <= v <= 1.
Proof.
  assert (M1 : Py.moderate 1)
    by (apply moderate_bounds; rewrite Rabs_right; lra).
  assert (M3 : Py.moderate 3)
    by (apply moderate_bounds; rewrite Rabs_right; lra).
  split; [lia |]. split; [exact M1 |]. split; [exact M3 |].
  destruct (X9_gabor_kernel_bounded 5 5 1 0 3 1 0)
    as [kernel [Hk Hcells]]; try lia; try assumption.
  destruct (Hcells 0%Z 4%Z ltac:(lia) ltac:(lia)) as [v [Hv Hb]].
  exists kernel, v. split; [exact Hk |]. split; [exact Hv | exact Hb].
Defined.



(** X11 -- [get_gabor_kernel] ignores the signs of [sigma] and [gamma]:
    both enter the kernel through their squares only, so a negative
    [sigma] or [gamma] raises nothing and gives the same result, value or
    exception, as its absolute value. *)
Theorem X11_gabor_kernel_sign_of_sigma_gamma
        (ksize : Z * Z) (sigma theta lambd gamma psi : R) :
  get_gabor_kernel ksize (- sigma) theta lambd gamma psi
  = get_gabor_kernel ksize sigma theta lambd gamma psi
  /\ get_gabor_kernel ksize sigma theta lambd (- gamma) psi
     = get_gabor_kernel ksize sigma theta lambd gamma psi.
Proof.
  destruct ksize as [width height].
  rewrite !get_gabor_kernel_outcome.
  destruct ((height <? 0) || (width <? 0))%Z; [split; reflexivity |].
  split.
  - rewrite pow_opp_2.
    replace (- sigma / gamma) with (- (sigma / gamma)) by (unfold Rdiv; ring).
    now rewrite rounded_opp_l, pow_opp_2.
  - destruct (Req_dec_T (Py.pow sigma 2) 0); [reflexivity |].
    destruct (Req_dec_T gamma 0) as [Eg | Ng];
      destruct (Req_dec_T (- gamma) 0) as [Eg' | Ng'];
      try reflexivity; try lra.
    replace (sigma / - gamma) with (- (sigma / gamma))
      by (field; assumption).
    now rewrite rounded_opp_r, pow_opp_2.
Qed.


(* ================================================================== *)
(** ** The Butterworth response *)

Section Butterworth.

Variables (cutoff : R) (n : Z).

Hypothesis cutoff_pos : 0 < cutoff.
Hypothesis order_pos : (1 <= n)%Z.

Lemma butterworth_range (r : R) : 0 < butterworth cutoff n r <= 1.
Proof.
  unfold butterworth.
  assert (Hp : 0 <= (r / cutoff) ^ Z.to_nat (2 * n)).
  { rewrite Z2Nat.inj_mul by lia. change (Z.to_nat 2) with 2%nat.
    rewrite pow_mult. apply pow_le, pow2_ge_0. }
  split.
  - apply Rdiv_lt_0_compat; lra.
  - apply Rmult_le_reg_r with (1 + (r / cutoff) ^ Z.to_nat (2 * n)); [lra |].
    unfold Rdiv. rewrite Rmult_assoc, Rinv_l by lra. lra.
Qed.

(** The response falls as the radius grows. *)
Lemma butterworth_decreasing (r1 r2 : R) :
  0 <= r1 <= r2 -> butterworth cutoff n r2 <= butterworth cutoff n r1.
Proof.
  intros [H1 H2]. unfold butterworth.
  assert (Hq : 0 <= r1 / cutoff <= r2 / cutoff).
  { split.
    - apply Rmult_le_pos; [exact H1 | left; now apply Rinv_0_lt_compat].
    - apply Rmult_le_compat_r; [left; now apply Rinv_0_lt_compat | exact H2]. }
  pose proof (pow_incr _ _ (Z.to_nat (2 * n)) Hq) as Hpow.
  assert (Hp1 : 0 <= (r1 / cutoff) ^ Z.to_nat (2 * n))
    by (apply pow_le; tauto).
  unfold Rdiv at 1 3. rewrite !Rmult_1_l.
  apply Rinv_le_contravar; lra.
Qed.

Lemma pow_lt_one (q : R) (m : nat) :
  0 <= q < 1 -> (1 <= m)%nat -> q ^ m < 1.
Proof.
  intros [H0 H1] Hm. destruct m as [| m]; [lia |].
  assert (Hqm : q ^ m <= 1).
  { rewrite <- (pow1 m). apply pow_incr. lra. }
  assert (0 <= q ^ m) by now apply pow_le.
  simpl. nra.
Qed.

Lemma pow_gt_one (q : R) (m : nat) :
  1 < q -> (1 <= m)%nat -> 1 < q ^ m.
Proof.
  intros H1 Hm. destruct m as [| m]; [lia |].
  assert (Hqm : 1 <= q ^ m) by (apply pow_R1_Rle; lra).
  simpl. nra.
Qed.

(** Inside the cutoff radius the response is above one half, outside
    below. *)
Lemma butterworth_half (r : R) :
  0 <= r ->
  (r < cutoff -> 1 / 2 < butterworth cutoff n r)
  /\ (cutoff < r -> butterworth cutoff n r < 1 / 2).
Proof.
  intros Hr. unfold butterworth.
  assert (Hm : (1 <= Z.to_nat (2 * n))%nat) by lia.
  assert (Hq0 : 0 <= r / cutoff).
  { apply Rmult_le_pos; [exact Hr | left; now apply Rinv_0_lt_compat]. }
  assert (Hp0 : 0 <= (r / cutoff) ^ Z.to_nat (2 * n)) by now apply pow_le.
  split; intros Hc.
  - assert (Hq1 : r / cutoff < 1).
    { apply Rmult_lt_reg_r with cutoff; [exact cutoff_pos |].
      unfold Rdiv. rewrite Rmult_assoc, Rinv_l by lra. lra. }
    pose proof (pow_lt_one _ _ (conj Hq0 Hq1) Hm) as Hp.
    unfold Rdiv at 2. rewrite Rmult_1_l.
    replace (1 / 2) with (/ 2) by lra.
    apply Rinv_lt_contravar; nra.
  - assert (Hq1 : 1 < r / cutoff).
    { apply Rmult_lt_reg_r with cutoff; [exact cutoff_pos |].
      unfold Rdiv. rewrite Rmult_assoc, Rinv_l by lra. lra. }
    pose proof (pow_gt_one _ _ Hq1 Hm) as Hp.
    unfold Rdiv at 1. rewrite Rmult_1_l.
    replace (1 / 2) with (/ 2) by lra.
    apply Rinv_lt_contravar; nra.
Qed.

End Butterworth.

(* ================================================================== *)
(** ** The low-pass filter, cell by cell *)

Section LowPassCells.

Variables (cols rows : Z) (cutoff : R) (n : Z).

Hypothesis cols_pos : (0 < cols)%Z.
Hypothesis rows_pos : (0 < rows)%Z.
Hypothesis cutoff_valid : 0 < cutoff <= 1 / 2.
Hypothesis order_valid : (1 <= n)%Z.

(** The returned grid holds the Butterworth response of each cell's
    radius. *)
Lemma low_pass_items :
  exists f,
    _low_pass_filter (cols, rows) cutoff n = Py.Return f
    /\ forall i j : Z,
        (0 <= i < rows)%Z -> (0 <= j < cols)%Z ->
        Np.item f (Z.to_nat i) (Z.to_nat j)
        = Some (Fin (butterworth cutoff n
                       (sqrt (axis_coord cols cols j * axis_coord cols cols j
                              + axis_coord rows rows i
                                * axis_coord rows rows i)))).
Proof.
  destruct (low_pass_shape cols rows cutoff n) as [f [Hf _]];
    [lra | exact order_valid |].
  exists f. split; [exact Hf |]. intros i j Hi Hj.
  now apply low_pass_cell.
Qed.

(** Mirrored cells of an axis have opposite coordinates. *)
Lemma axis_coord_mirror (c k : Z) :
  (0 < c)%Z -> axis_coord c c (c - k) = - axis_coord c c k.
Proof.
  intros Hc. unfold axis_coord.
  rewrite minus_IZR, opp_IZR. field. apply not_0_IZR. lia.
Qed.

End LowPassCells.

(* ================================================================== *)
(** ** Further properties of the low-pass filter *)

(** X13 -- For positive dimensions, a cutoff in (0, 0.5] and an order
    [n >= 1], every cell of the low-pass filter is a finite number in
    (0, 1]: the filter never amplifies and never blocks completely. *)
Theorem X13_low_pass_filter_range (cols rows : Z) (cutoff : R) (n : Z) :
  (0 < cols)%Z -> (0 < rows)%Z -> 0 < cutoff <= 1 / 2 -> (1 <= n)%Z ->
  exists f,
    _low_pass_filter (cols, rows) cutoff n = Py.Return f
    /\ forall i j : Z,
        (0 <= i < rows)%Z -> (0 <= j < cols)%Z ->
        exists v, Np.item f (Z.to_nat i) (Z.to_nat j) = Some (Fin v)
                  /\ 0 < v <= 1.
Proof.
  intros Hc Hr Hcut Hn.
  destruct (low_pass_items cols rows cutoff n Hc Hr Hcut Hn)
    as [f [Hf Hcells]].
  exists f. split; [exact Hf |]. intros i j Hi Hj.
  eexists. split; [now apply Hcells |].
  apply butterworth_range; assumption || lra.
Qed.

(** A corner of the window that [get_log_gabor_kernel] uses, on a 6 x 4
    grid. *)
Lemma X13_low_pass_filter_range_witness :
  (0 < 6)%Z /\ (0 < 4)%Z /\ 0 < 45 / 100 <= 1 / 2 /\ (1 <= 15)%Z /\
  exists f v,
    _low_pass_filter (6, 4)%Z (45 / 100) 15 = Py.Return f
    /\ Np.item f 0 0 = Some (Fin v) /\ 0 < v <= 1.
Proof.
  split; [lia |]. split; [lia |]. split; [lra |]. split; [lia |].
  destruct (X13_low_pass_filter_range 6 4 (45 / 100) 15)
    as [f [Hf Hcells]]; try lia; try lra.
  destruct (Hcells 0%Z 0%Z ltac:(lia) ltac:(lia)) as [v [Hv Hb]].
  exists f, v. split; [exact Hf |]. split; [exact Hv | exact Hb].
Defined.

(** X14 -- The low-pass filter falls with the radius: of two cells, the
    one at the larger radius never holds the larger value. *)
Theorem X14_low_pass_filter_decreasing
        (cols rows : Z) (cutoff : R) (n : Z) :
  (0 < cols)%Z -> (0 < rows)%Z -> 0 < cutoff <= 1 / 2 -> (1 <= n)%Z ->
  exists f,
    _low_pass_filter (cols, rows) cutoff n = Py.Return f
    /\ forall i1 j1 i2 j2 : Z,
        (0 <= i1 < rows)%Z -> (0 <= j1 < cols)%Z ->
        (0 <= i2 < rows)%Z -> (0 <= j2 < cols)%Z ->
        sqrt (axis_coord cols cols j1 * axis_coord cols cols j1
              + axis_coord rows rows i1 * axis_coord rows rows i1)
        <= sqrt (axis_coord cols cols j2 * axis_coord cols cols j2
                 + axis_coord rows rows i2 * axis_coord rows rows i2) ->
        exists v1 v2,
          Np.item f (Z.to_nat i1) (Z.to_nat j1) = Some (Fin v1)
          /\ Np.item f (Z.to_nat i2) (Z.to_nat j2) = Some (Fin v2)
          /\ v2 <= v1.
Proof.
  intros Hc Hr Hcut Hn.
  destruct (low_pass_items cols rows cutoff n Hc Hr Hcut Hn)
    as [f [Hf Hcells]].
  exists f. split; [exact Hf |]. intros i1 j1 i2 j2 Hi1 Hj1 Hi2 Hj2 Hle.
  eexists. eexists. split; [now apply Hcells |]. split; [now apply Hcells |].
  apply butterworth_decreasing; try assumption; try lra.
  split; [apply sqrt_pos | exact Hle].
Qed.

(** On a 4 x 4 grid the cell [(2, 2)] lies at the origin and [(2, 3)] at
    radius 0.25. *)
Lemma X14_low_pass_filter_decreasing_witness :
  (0 < 4)%Z /\ 0 < 1 / 4 <= 1 / 2 /\ (1 <= 2)%Z /\
  exists f v1 v2,
    _low_pass_filter (4, 4)%Z (1 / 4) 2 = Py.Return f
    /\ Np.item f 2 2 = Some (Fin v1)
    /\ Np.item f 2 3 = Some (Fin v2)
    /\ v2 <= v1.
Proof.
  split; [lia |]. split; [lra |]. split; [lia |].
  destruct (X14_low_pass_filter_decreasing 4 4 (1 / 4) 2)
    as [f [Hf Hcells]]; try lia; try lra.
  destruct (Hcells 2%Z 2%Z 2%Z 3%Z) as [v1 [v2 [H1 [H2 Hle]]]]; try lia.
  - apply sqrt_le_1; unfold axis_coord; change (IZR (- (4))) with (-4); nra.
  - exists f, v1, v2. split; [exact Hf |]. split; [exact H1 |].
    split; [exact H2 | exact Hle].
Defined.

(** X15 -- The cutoff is the half-response radius of the low-pass
    filter: a cell inside the cutoff radius holds more than 0.5, a cell
    outside less than 0.5, for every order. *)
Theorem X15_low_pass_filter_half_response
        (cols rows : Z) (cutoff : R) (n : Z) :
  (0 < cols)%Z -> (0 < rows)%Z -> 0 < cutoff <= 1 / 2 -> (1 <= n)%Z ->
  exists f,
    _low_pass_filter (cols, rows) cutoff n = Py.Return f
    /\ forall i j : Z,
        (0 <= i < rows)%Z -> (0 <= j < cols)%Z ->
        let r := sqrt (axis_coord cols cols j * axis_coord cols cols j
                       + axis_coord rows rows i * axis_coord rows rows i) in
        exists v,
          Np.item f (Z.to_nat i) (Z.to_nat j) = Some (Fin v)
          /\ (r < cutoff -> 1 / 2 < v)
          /\ (cutoff < r -> v < 1 / 2).
Proof.
  intros Hc Hr Hcut Hn.
  destruct (low_pass_items cols rows cutoff n Hc Hr Hcut Hn)
    as [f [Hf Hcells]].
  exists f. split; [exact Hf |]. intros i j Hi Hj r.
  eexists. split; [now apply Hcells |].
  apply butterworth_half; try assumption; try lra. apply sqrt_pos.
Qed.

(** On a 4 x 4 grid with cutoff 0.25 the corner [(0, 0)] lies at radius
    [sqrt(0.5)], outside the cutoff. *)
Lemma X15_low_pass_filter_half_response_witness :
  (0 < 4)%Z /\ 0 < 1 / 4 <= 1 / 2 /\ (1 <= 2)%Z /\
  exists f v,
    _low_pass_filter (4, 4)%Z (1 / 4) 2 = Py.Return f
    /\ Np.item f 0 0 = Some (Fin v) /\ v < 1 / 2.
Proof.
  split; [lia |]. split; [lra |]. split; [lia |].
  destruct (X15_low_pass_filter_half_response 4 4 (1 / 4) 2)
    as [f [Hf Hcells]]; try lia; try lra.
  destruct (Hcells 0%Z 0%Z ltac:(lia) ltac:(lia)) as [v [Hv [_ Hout]]].
  exists f, v. split; [exact Hf |]. split; [exact Hv |].
  apply Hout.
  unfold axis_coord. change (IZR (- (4))) with (-4).
  replace ((- 4 / 2 + 0) / 4 * ((- 4 / 2 + 0) / 4)
           + (- 4 / 2 + 0) / 4 * ((- 4 / 2 + 0) / 4)) with (1 / 2) by field.
  rewrite <- (sqrt_square (1 / 4)) at 1 by lra.
  apply sqrt_lt_1; lra.
Defined.

(** X16 -- The low-pass filter is mirror symmetric about the zero
    coordinate of each axis: column [j] and column [cols - j] hold the
    same values, and so do row [i] and row [rows - i]; column 0 and row
    0, at coordinate -0.5, have no mirror. *)
Theorem X16_low_pass_filter_mirror (cols rows : Z) (cutoff : R) (n : Z) :
  (0 < cols)%Z -> (0 < rows)%Z -> 0 < cutoff <= 1 / 2 -> (1 <= n)%Z ->
  exists f,
    _low_pass_filter (cols, rows) cutoff n = Py.Return f
    /\ (forall i j : Z,
           (0 <= i < rows)%Z -> (1 <= j < cols)%Z ->
           Np.item f (Z.to_nat i) (Z.to_nat (cols - j))
           = Np.item f (Z.to_nat i) (Z.to_nat j))
    /\ (forall i j : Z,
           (1 <= i < rows)%Z -> (0 <= j < cols)%Z ->
           Np.item f (Z.to_nat (rows - i)) (Z.to_nat j)
           = Np.item f (Z.to_nat i) (Z.to_nat j)).
Proof.
  intros Hc Hr Hcut Hn.
  destruct (low_pass_items cols rows cutoff n Hc Hr Hcut Hn)
    as [f [Hf Hcells]].
  exists f. split; [exact Hf |]. split; intros i j Hi Hj.
  - rewrite !Hcells by lia. rewrite axis_coord_mirror by exact Hc.
    do 4 f_equal. ring.
  - rewrite !Hcells by lia. rewrite axis_coord_mirror by exact Hr.
    do 4 f_equal. ring.
Qed.

(** Columns 1 and 3 of a 4 x 4 filter. *)
Lemma X16_low_pass_filter_mirror_witness :
  (0 < 4)%Z /\ 0 < 1 / 4 <= 1 / 2 /\ (1 <= 2)%Z /\
  exists f,
    _low_pass_filter (4, 4)%Z (1 / 4) 2 = Py.Return f
    /\ Np.item f 0 3 = Np.item f 0 1.
Proof.
  split; [lia |]. split; [lra |]. split; [lia |].
  destruct (X16_low_pass_filter_mirror 4 4 (1 / 4) 2)
    as [f [Hf [Hcol _]]]; try lia; try lra.
  exists f. split; [exact Hf |].
  apply (Hcol 0%Z 1%Z); lia.
Defined.

(** X17 -- For even dimensions, a valid cutoff and a valid order, the
    cell at row [rows / 2], column [cols / 2] of the low-pass filter lies
    at the origin of the frequency grid and holds exactly 1. *)
Theorem X17_low_pass_filter_origin (cols rows : Z) (cutoff : R) (n : Z) :
  (0 < cols)%Z -> (0 < rows)%Z -> 0 < cutoff <= 1 / 2 -> (1 <= n)%Z ->
  Z.even cols = true -> Z.even rows = true ->
  exists f,
    _low_pass_filter (cols, rows) cutoff n = Py.Return f
    /\ Np.item f (Z.to_nat (rows / 2)) (Z.to_nat (cols / 2)) = Some (Fin 1).
Proof.
  intros Hc Hr Hcut Hn Hec Her.
  destruct (low_pass_items cols rows cutoff n Hc Hr Hcut Hn)
    as [f [Hf Hcells]].
  exists f. split; [exact Hf |].
  rewrite Hcells by (apply half_in_range; assumption).
  unfold axis_coord.
  rewrite (even_axis_centre cols Hec), (even_axis_centre rows Her).
  replace (0 / IZR cols * (0 / IZR cols) + 0 / IZR rows * (0 / IZR rows))
    with 0 by (unfold Rdiv; ring).
  rewrite sqrt_0. unfold butterworth.
  replace (0 / cutoff) with 0 by (unfold Rdiv; ring).
  rewrite pow_ne_zero by lia. do 2 f_equal. field.
Qed.

(** The origin cell [(2, 2)] of a 4 x 4 filter. *)
Lemma X17_low_pass_filter_origin_witness :
  (0 < 4)%Z /\ 0 < 1 / 4 <= 1 / 2 /\ (1 <= 2)%Z /\ Z.even 4 = true /\
  exists f,
    _low_pass_filter (4, 4)%Z (1 / 4) 2 = Py.Return f
    /\ Np.item f 2 2 = Some (Fin 1).
Proof.
  split; [lia |]. split; [lra |]. split; [lia |]. split; [reflexivity |].
  apply (X17_low_pass_filter_origin 4 4 (1 / 4) 2);
    try lia; try lra; reflexivity.
Defined.

(* ================================================================== *)
(** ** The Log-Gabor kernel, cell by cell *)

Section LogGaborCells.

Variables (cols rows : Z).

Hypothesis cols_pos : (0 < cols)%Z.
Hypothesis rows_pos : (0 < rows)%Z.

(** Only the middle cell of an axis can have the coordinate 0. *)
Lemma axis_zero_is_centre (c k : Z) :
  IZR (- c) / 2 + IZR k = 0 -> k = (c / 2)%Z.
Proof.
  intros E.
  assert (H : IZR (2 * k) = IZR c).
  { rewrite opp_IZR in E. rewrite mult_IZR. lra. }
  apply eq_IZR in H. subst c.
  rewrite Z.mul_comm. symmetry. apply Z.div_mul. lia.
Qed.

(** Off the centre cell the radius is positive. *)
Lemma radius_positive_off_centre (i j : Z) :
  i <> (rows / 2)%Z \/ j <> (cols / 2)%Z ->
  0 < sqrt (axis_coord cols (Z.min cols rows) j
            * axis_coord cols (Z.min cols rows) j
            + axis_coord rows (Z.min cols rows) i
              * axis_coord rows (Z.min cols rows) i).
Proof.
  intros Hoff. apply sqrt_lt_R0.
  set (x := axis_coord cols (Z.min cols rows) j).
  set (y := axis_coord rows (Z.min cols rows) i).
  assert (Hm : / IZR (Z.min cols rows) <> 0).
  { apply Rinv_neq_0_compat, not_0_IZR. lia. }
  assert (Hxy : x <> 0 \/ y <> 0).
  { destruct Hoff as [Hi | Hj].
    - right. unfold y, axis_coord, Rdiv.
      apply Rmult_integral_contrapositive_currified; [| exact Hm].
      intros E. apply Hi. now apply axis_zero_is_centre.
    - left. unfold x, axis_coord, Rdiv.
      apply Rmult_integral_contrapositive_currified; [| exact Hm].
      intros E. apply Hj. now apply axis_zero_is_centre. }
  destruct Hxy as [Hx | Hy].
  - assert (0 < x * x) by nra. nra.
  - assert (0 < y * y) by nra. nra.
Qed.

Variables (f0 theta0 sigma_over_f sigma_theta0 : R).

(** Every cell off the centre is the product of the three components at
    that cell. *)
Lemma log_gabor_kernel_items :
  exists kernel,
    get_log_gabor_kernel (cols, rows) f0 theta0 sigma_over_f sigma_theta0
    = Py.Return kernel
    /\ forall i j : Z,
        (0 <= i < rows)%Z -> (0 <= j < cols)%Z ->
        i <> (rows / 2)%Z \/ j <> (cols / 2)%Z ->
        let x := axis_coord cols (Z.min cols rows) j in
        let y := axis_coord rows (Z.min cols rows) i in
        Np.item kernel (Z.to_nat i) (Z.to_nat j)
        = Some (Np.mul
                  (Np.mul
                     (Np.radial_cell f0 (lg_radial_denominator sigma_over_f)
                                     (Fin (sqrt (x * x + y * y))))
                     (Np.angular_cell theta0 sigma_theta0 (Fin x) (Fin y)))
                  (Fin (butterworth (45 / 100) 15
                          (sqrt (axis_coord cols cols j
                                 * axis_coord cols cols j
                                 + axis_coord rows rows i
                                   * axis_coord rows rows i))))).
Proof.
  destruct (get_log_gabor_kernel_returns cols rows f0 theta0 sigma_over_f
                                         sigma_theta0 cols_pos rows_pos)
    as [lp [Hlp [_ Hk]]].
  eexists. split; [exact Hk |].
  intros i j Hi Hj Hoff x y.
  assert (Hoff' : Z.to_nat (rows / 2) <> Z.to_nat i
                  \/ Z.to_nat (cols / 2) <> Z.to_nat j).
  { pose proof (half_in_range rows rows_pos).
    pose proof (half_in_range cols cols_pos).
    destruct Hoff as [H1 | H1]; [left | right]; lia. }
  assert (Hrad : Np.item (log_gabor_radial_grid (cols, rows) f0 sigma_over_f)
                         (Z.to_nat i) (Z.to_nat j)
                 = Some (Np.radial_cell f0 (lg_radial_denominator sigma_over_f)
                                        (Fin (sqrt (x * x + y * y))))).
  { unfold log_gabor_radial_grid.
    rewrite item_set_other by exact Hoff'.
    apply item_map2d. rewrite item_set_other by exact Hoff'.
    now apply log_gabor_radius_item. }
  destruct (log_gabor_grid_item cols rows i j cols_pos rows_pos Hi Hj)
    as [Hx Hy].
  pose proof (log_gabor_angular_item cols rows theta0 sigma_theta0
                                     _ _ _ _ Hx Hy) as Hang.
  pose proof (low_pass_cell cols rows (45 / 100) 15 lp i j
                            cols_pos rows_pos ltac:(lra) ltac:(lia)
                            Hlp Hi Hj) as Hlpc.
  exact (item_zip2d Np.mul _ _ _ _ _ _
                    (item_zip2d Np.mul _ _ _ _ _ _ Hrad Hang) Hlpc).
Qed.

(** At finite coordinates and for an angular bandwidth whose square does
    not underflow the angular value lies in (0, 1]. *)
Lemma angular_cell_range (x y : R) :
  Py.eta < sigma_theta0 ^ 2 ->
  exists a, Np.angular_cell theta0 sigma_theta0 (Fin x) (Fin y) = Fin a
            /\ 0 < a <= 1.
Proof.
  intros Hst. unfold Np.angular_cell. rewrite (pow_square _ Hst).
  cbn [Np.neg Np.arctan2 Np.sin Np.cos Np.mul Np.add Np.abs].
  rewrite power_fin_nonneg by lia. cbn [Np.neg].
  assert (Hden : 0 < 2 * sigma_theta0 ^ 2).
  { pose proof eta_pos. lra. }
  rewrite div_fin by lra. cbn [Np.exp].
  eexists. split; [reflexivity |]. split; [apply exp_pos |].
  match goal with |- exp (- ?d ^ Z.to_nat 2 / _) <= 1 =>
    assert (Hd : 0 <= d ^ Z.to_nat 2) by (simpl; nra);
    set (D := d ^ Z.to_nat 2) in *
  end.
  assert (Hle : - D / (2 * sigma_theta0 ^ 2) <= 0).
  { unfold Rdiv.
    assert (0 < / (2 * sigma_theta0 ^ 2)) by now apply Rinv_0_lt_compat.
    nra. }
  destruct Hle as [Hlt | Heq].
  - left. rewrite <- exp_0. now apply exp_increasing.
  - rewrite Heq, exp_0. lra.
Qed.

(** For positive [f0] and radius and a positive finite denominator the
    radial value lies in (0, 1]. *)
Lemma radial_cell_range (d r : R) :
  0 < f0 -> 0 < d -> 0 < r ->
  exists v, Np.radial_cell f0 (Fin d) (Fin r) = Fin v /\ 0 < v <= 1.
Proof.
  intros Hf Hd Hr. unfold Np.radial_cell.
  rewrite div_fin by lra.
  rewrite log_fin_pos by (apply Rdiv_lt_0_compat; assumption).
  rewrite power_fin_nonneg by lia. cbn [Np.neg].
  rewrite div_fin by lra. cbn [Np.exp].
  eexists. split; [reflexivity |]. split; [apply exp_pos |].
  set (L := ln (r / f0)).
  assert (HL : 0 <= L ^ Z.to_nat 2) by (simpl; nra).
  assert (Hle : - L ^ Z.to_nat 2 / d <= 0).
  { unfold Rdiv. assert (0 < / d) by now apply Rinv_0_lt_compat. nra. }
  destruct Hle as [Hlt | Heq].
  - left. rewrite <- exp_0. now apply exp_increasing.
  - rewrite Heq, exp_0. lra.
Qed.

(** The radial denominator of a bandwidth other than 1. *)
Lemma lg_radial_denominator_pos :
  0 < sigma_over_f -> sigma_over_f <> 1 ->
  lg_radial_denominator sigma_over_f = Fin (2 * ln sigma_over_f ^ 2)
  /\ 0 < 2 * ln sigma_over_f ^ 2.
Proof.
  intros Hpos Hne. unfold lg_radial_denominator.
  rewrite log_fin_pos by exact Hpos.
  rewrite power_fin_nonneg by lia. cbn [Np.mul]. split; [reflexivity |].
  pose proof (ln_neq_0 _ Hne Hpos) as Hln.
  replace (ln sigma_over_f ^ 2) with (ln sigma_over_f * ln sigma_over_f)
    by ring.
  nra.
Qed.





End LogGaborCells.

(* ================================================================== *)
(** ** Further properties of the Log-Gabor kernel *)

(** X18 -- On the frequency grid of [get_log_gabor_kernel], for positive
    dimensions, every cell other than the centre cell (row
    [floor(rows / 2)], column [floor(cols / 2)]) has a positive radius,
    so the logarithm never receives a zero radius; for even dimensions
    the centre cell has radius 0; and the patch writes 1 at the centre
    cell and changes no other cell. *)
Theorem X18_log_gabor_radius_grid (cols rows : Z) :
  (0 < cols)%Z -> (0 < rows)%Z ->
  (forall i j : Z,
      (0 <= i < rows)%Z -> (0 <= j < cols)%Z ->
      i <> (rows / 2)%Z \/ j <> (cols / 2)%Z ->
      exists r, Np.item (log_gabor_radius (cols, rows))
                        (Z.to_nat i) (Z.to_nat j) = Some (Fin r)
                /\ 0 < r)
  /\ (Z.even cols = true -> Z.even rows = true ->
      Np.item (log_gabor_radius (cols, rows))
              (Z.to_nat (rows / 2)) (Z.to_nat (cols / 2)) = Some (Fin 0))
  /\ exists patched,
      log_gabor_patched_radius (cols, rows) = Py.Return patched
      /\ Np.item patched (Z.to_nat (rows / 2)) (Z.to_nat (cols / 2))
         = Some (Fin 1)
      /\ forall i j : nat,
          i <> Z.to_nat (rows / 2) \/ j <> Z.to_nat (cols / 2) ->
          Np.item patched i j = Np.item (log_gabor_radius (cols, rows)) i j.
Proof.
  intros Hc Hr. split; [| split].
  - intros i j Hi Hj Hoff. eexists. split.
    + now apply log_gabor_radius_item.
    + now apply radius_positive_off_centre.
  - now apply log_gabor_radius_centre_even.
  - eexists. split; [now apply log_gabor_patched_radius_returns |].
    destruct (centre_in_range cols rows Hc Hr) as [Hri Hci].
    pose proof (log_gabor_radius_shape cols rows) as Hs.
    split.
    + apply item_set_same.
      * destruct Hs as [Hl _]. lia.
      * rewrite (has_shape_nth_length _ _ _ _ Hs Hri). exact Hci.
    + intros i j Hoff. apply item_set_other.
      destruct Hoff as [H | H]; [left | right]; congruence.
Qed.

(** On a 4 x 4 grid the cell [(2, 1)] has a positive radius and the
    centre [(2, 2)] radius 0. *)
Lemma X18_log_gabor_radius_grid_witness :
  (0 < 4)%Z
  /\ (exists r, Np.item (log_gabor_radius (4, 4)%Z) 2 1 = Some (Fin r)
                /\ 0 < r)
  /\ Np.item (log_gabor_radius (4, 4)%Z) 2 2 = Some (Fin 0).
Proof.
  split; [lia |].
  destruct (X18_log_gabor_radius_grid 4 4) as [Hoff [Heven _]]; try lia.
  split.
  - apply (Hoff 2%Z 1%Z); lia.
  - now apply Heven.
Defined.

(** X19 -- For positive dimensions, [f0 > 0], [sigma_over_f > 0] other
    than 1 and a [sigma_theta] of moderate magnitude (between
    [2 ** -250] and [2 ** 250] in absolute value), every cell of the
    Log-Gabor kernel is, in exact arithmetic, a finite number in [0, 1]
    (no [nan], no infinity), and every cell other than the centre cell
    is positive. *)
Theorem X19_log_gabor_kernel_range
        (cols rows : Z) (f0 theta0 sigma_over_f sigma_theta0 : R) :
  (0 < cols)%Z -> (0 < rows)%Z ->
  0 < f0 -> 0 < sigma_over_f -> sigma_over_f <> 1 ->
  Py.moderate sigma_theta0 ->
  exists kernel,
    get_log_gabor_kernel (cols, rows) f0 theta0 sigma_over_f sigma_theta0
    = Py.Return kernel
    /\ forall i j : Z,
        (0 <= i < rows)%Z -> (0 <= j < cols)%Z ->
        exists v,
          Np.item kernel (Z.to_nat i) (Z.to_nat j) = Some (Fin v)
          /\ 0 <= v <= 1
          /\ (i <> (rows / 2)%Z \/ j <> (cols / 2)%Z -> 0 < v).
Proof.
  intros Hc Hr Hf Hsof Hne Mst.
  pose proof (moderate_square _ Mst) as Hst.
  destruct (log_gabor_kernel_items cols rows Hc Hr f0 theta0 sigma_over_f
                                   sigma_theta0) as [kernel [Hk Hcells]].
  destruct (get_log_gabor_kernel_centre cols rows f0 theta0 sigma_over_f
                                        sigma_theta0 Hc Hr Hst)
    as [kernel' [Hk' Hcentre]].
  assert (kernel' = kernel) by congruence. subst kernel'.
  exists kernel. split; [exact Hk |]. intros i j Hi Hj.
  destruct (Z.eq_dec i (rows / 2)) as [Ei | Ni];
    [destruct (Z.eq_dec j (cols / 2)) as [Ej | Nj] |].
  - subst i j. exists 0. split; [exact Hcentre |]. split; [lra |].
    intros [H | H]; now elim H.
  - assert (Hoff : i <> (rows / 2)%Z \/ j <> (cols / 2)%Z) by now right.
    specialize (Hcells i j Hi Hj Hoff). cbv zeta in Hcells.
    destruct (lg_radial_denominator_pos sigma_over_f Hsof Hne) as [Ed Hd].
    rewrite Ed in Hcells.
    destruct (radial_cell_range f0 _ _ Hf Hd
                (radius_positive_off_centre cols rows Hc Hr i j Hoff))
      as [v [Ev Hv]].
    destruct (angular_cell_range theta0 sigma_theta0
                (axis_coord cols (Z.min cols rows) j)
                (axis_coord rows (Z.min cols rows) i) Hst) as [a [Ea Ha]].
    rewrite Ev, Ea in Hcells. cbn [Np.mul] in Hcells.
    eexists. split; [exact Hcells |].
    match goal with |- context [butterworth ?c ?n ?r] =>
      pose proof (butterworth_range c n ltac:(lia) r) as Hl;
      set (l := butterworth c n r) in *
    end.
    assert (0 < v * a) by nra. assert (v * a <= 1) by nra.
    split; [nra |]. intros _. nra.
  - assert (Hoff : i <> (rows / 2)%Z \/ j <> (cols / 2)%Z) by now left.
    specialize (Hcells i j Hi Hj Hoff). cbv zeta in Hcells.
    destruct (lg_radial_denominator_pos sigma_over_f Hsof Hne) as [Ed Hd].
    rewrite Ed in Hcells.
    destruct (radial_cell_range f0 _ _ Hf Hd
                (radius_positive_off_centre cols rows Hc Hr i j Hoff))
      as [v [Ev Hv]].
    destruct (angular_cell_range theta0 sigma_theta0
                (axis_coord cols (Z.min cols rows) j)
                (axis_coord rows (Z.min cols rows) i) Hst) as [a [Ea Ha]].
    rewrite Ev, Ea in Hcells. cbn [Np.mul] in Hcells.
    eexists. split; [exact Hcells |].
    match goal with |- context [butterworth ?c ?n ?r] =>
      pose proof (butterworth_range c n ltac:(lia) r) as Hl;
      set (l := butterworth c n r) in *
    end.
    assert (0 < v * a) by nra. assert (v * a <= 1) by nra.
    split; [nra |]. intros _. nra.
Qed.

(** A corner of the 5 x 4 kernel of the default bank parameters. *)
Lemma X19_log_gabor_kernel_range_witness :
  (0 < 5)%Z /\ (0 < 4)%Z /\ 0 < 1 / 3 /\ 0 < 3 / 4 /\ 3 / 4 <> 1
  /\ Py.moderate 1 /\
  exists kernel v,
    get_log_gabor_kernel (5, 4)%Z (1 / 3) 0 (3 / 4) 1 = Py.Return kernel
    /\ Np.item kernel 0 0 = Some (Fin v) /\ 0 < v <= 1.
Proof.
  assert (M1 : Py.moderate 1)
    by (apply moderate_bounds; rewrite Rabs_right; lra).
  split; [lia |]. split; [lia |]. split; [lra |]. split; [lra |].
  split; [lra |]. split; [exact M1 |].
  destruct (X19_log_gabor_kernel_range 5 4 (1 / 3) 0 (3 / 4) 1)
    as [kernel [Hk Hcells]]; try lia; try lra; try exact M1.
  destruct (Hcells 0%Z 0%Z ltac:(lia) ltac:(lia)) as [v [Hv [Hb Hpos]]].
  exists kernel, v. split; [exact Hk |]. split; [exact Hv |].
  split; [| lra]. apply Hpos. left. vm_compute. discriminate.
Defined.





(** X22 -- [get_log_gabor_kernel] ignores the sign of [sigma_theta]:
    the angular bandwidth enters the kernel through its square only, so
    a negative [sigma_theta] raises nothing and gives the same result as
    its absolute value. *)
Theorem X22_log_gabor_kernel_sign_of_sigma_theta
        (ksize : Z * Z) (f0 theta0 sigma_over_f sigma_theta0 : R) :
  get_log_gabor_kernel ksize f0 theta0 sigma_over_f (- sigma_theta0)
  = get_log_gabor_kernel ksize f0 theta0 sigma_over_f sigma_theta0.
Proof.
  unfold get_log_gabor_kernel, log_gabor_angular.
  now rewrite pow_opp_2.
Qed.


